(** * Flashcard generator: a shallow embedding of [flashcard_generator.py]

    The development follows the source top-down: the string primitives of
    Python that the generator calls, the data handed over by the annotator
    (spaCy) and by the lexical database (WordNet), the runtime services the
    generator relies on (set iteration order, the [random] module), the
    generator itself, and finally the properties of the generator. *)

From Stdlib Require Import List Bool Arith ZArith Lia Ascii String Permutation.
From Stdlib Require Import DecimalString DecimalNat.
Import ListNotations.

Local Open Scope list_scope.
Local Open Scope string_scope.

(** ** Python [str] operations

    A Python string is modelled by [string]; every [ascii] stands for the
    code point of the same number, so the model covers the strings whose
    code points are below 256.  On those code points [str.lower] and
    [str.isspace] are the tables below. *)

Module PyStr.

(** [c.isspace()]: TAB, LF, VT, FF, CR, FS, GS, RS, US, SPACE, NEL, NBSP. *)
Definition isspace (c : ascii) : bool :=
  let n := N_of_ascii c in
  (((9 <=? n) && (n <=? 13)) || ((28 <=? n) && (n <=? 32))
   || (n =? 133) || (n =? 160))%N.

(** [c.lower()]: A-Z and the capital letters of Latin-1 move up by 32. *)
Definition lower_char (c : ascii) : ascii :=
  let n := N_of_ascii c in
  if (((65 <=? n) && (n <=? 90))
      || ((192 <=? n) && (n <=? 222) && negb (n =? 215)))%N
  then ascii_of_N (n + 32) else c.

Fixpoint lower (s : string) : string :=
  match s with
  | "" => ""
  | String c t => String (lower_char c) (lower t)
  end.

Fixpoint lstrip (s : string) : string :=
  match s with
  | "" => ""
  | String c t => if isspace c then lstrip t else s
  end.

Fixpoint rstrip (s : string) : string :=
  match s with
  | "" => ""
  | String c t =>
      match rstrip t with
      | "" => if isspace c then "" else String c ""
      | t' => String c t'
      end
  end.

(** [s.strip()] *)
Definition strip (s : string) : string := rstrip (lstrip s).

(** [s.split()]: the maximal runs of non-whitespace characters.  [word] is
    the run being read. *)
Fixpoint split_scan (word s : string) : list string :=
  match s with
  | "" => match word with "" => [] | _ => [word] end
  | String c t =>
      if isspace c
      then match word with
           | "" => split_scan "" t
           | _ => word :: split_scan "" t
           end
      else split_scan (word ++ String c "") t
  end.

Definition split (s : string) : list string := split_scan "" s.

(** [s.startswith(p)] *)
Fixpoint startswith (p s : string) : bool :=
  match p, s with
  | "", _ => true
  | String _ _, "" => false
  | String a p', String b s' => (a =? b)%char && startswith p' s'
  end.

(** [sub in s] *)
Fixpoint contains (sub s : string) : bool :=
  startswith sub s
  || match s with
     | "" => false
     | String _ t => contains sub t
     end.

(** Number of positions of [s] at which [sub] starts. *)
Fixpoint occurrences (sub s : string) : nat :=
  (if startswith sub s then 1 else 0)
  + match s with
    | "" => 0
    | String _ t => occurrences sub t
    end.

Fixpoint drop (n : nat) (s : string) : string :=
  match n, s with
  | O, _ => s
  | S _, "" => ""
  | S k, String _ t => drop k t
  end.

(** [s.replace(old, new, count)] for a non-empty [old]: scan left to
    right, replacing at most [count] non-overlapping occurrences; [skip]
    counts the characters of a replaced occurrence still to be passed. *)
Fixpoint replace_scan (old new : string) (count skip : nat) (s : string)
  : string :=
  match s with
  | "" => ""
  | String c t =>
      match skip with
      | S k => replace_scan old new count k t
      | O =>
          match count with
          | O => s
          | S n =>
              if startswith old s
              then new ++ replace_scan old new n (String.length old - 1) t
              else String c (replace_scan old new count 0 t)
          end
      end
  end.

(** [s.replace("", new, count)]: [new] goes in front of the first [count]
    characters, and after the last one when [count] allows. *)
Fixpoint replace_empty (new : string) (count : nat) (s : string) : string :=
  match count with
  | O => s
  | S n =>
      new ++ match s with
             | "" => ""
             | String c t => String c (replace_empty new n t)
             end
  end.

(** [s.replace(old, new, count)]; a negative [count] replaces all. *)
Definition replace (old new : string) (count : Z) (s : string) : string :=
  let n := if (count <? 0)%Z then S (String.length s) else Z.to_nat count in
  match old with
  | "" => replace_empty new n s
  | _ => replace_scan old new n 0 s
  end.

(** [str(n)] for a natural number. *)
Definition str_of_nat (n : nat) : string :=
  NilEmpty.string_of_uint (Nat.to_uint n).

(** [x in l] for a list of strings. *)
Definition mem (x : string) (l : list string) : bool :=
  existsb (String.eqb x) l.

(** The first occurrence of [sub] in [s] lies between [pre] and [post]. *)
Definition first_occurrence (sub s pre post : string) : Prop :=
  s = pre ++ sub ++ post
  /\ forall k, k < String.length pre -> startswith sub (drop k s) = false.

(** Trimmed strings: no whitespace at either end. *)
Definition head_ok (s : string) : Prop :=
  match s with
  | "" => True
  | String c _ => isspace c = false
  end.

Definition is_stripped (s : string) : Prop := head_ok s /\ rstrip s = s.

End PyStr.

(** ** Data handed over by the collaborators *)

(** A named-entity span of spaCy: [ent.text] and [ent.label_]. *)
Record Entity := { ent_text : string; ent_label : string }.

(** A noun chunk: [chunk.text] and [chunk.root.pos_]. *)
Record NounChunk := { chunk_text : string; chunk_root_pos : string }.

(** A token: [token.text] and [token.pos_]. *)
Record Token := { tok_text : string; tok_pos : string }.

(** A sentence of [doc.sents]: [sent.text], [sent.ents],
    [sent.noun_chunks]. *)
Record Sentence := {
  sent_text : string;
  sent_ents : list Entity;
  sent_noun_chunks : list NounChunk
}.

(** The annotated document: [doc.sents], [doc.ents] and the tokens met
    when iterating over [doc]. *)
Record Doc := {
  doc_sents : list Sentence;
  doc_ents : list Entity;
  doc_tokens : list Token
}.

(** A WordNet synset, as the names of its lemmas. *)
Definition Synset := list string.

(** The dictionary appended to [flashcards]. *)
Record Flashcard := {
  card_type : string;
  question : string;
  answer : string;
  options : list string
}.

(** ** Exceptions and the generator's monad *)

Inductive exn := ValueError | IndexError.

Inductive result (A : Type) : Type :=
| Ok (a : A)
| Raise (e : exn).
Arguments Ok {A} a.
Arguments Raise {A} e.

Definition result_map {A B : Type} (f : A -> B) (r : result A) : result B :=
  match r with
  | Ok a => Ok (f a)
  | Raise e => Raise e
  end.

(** A computation that reads and advances the generator state [G] of the
    random source and may raise. *)
Definition M (G A : Type) : Type := G -> result (A * G).

Definition ret {G A : Type} (a : A) : M G A := fun g => Ok (a, g).

Definition bind {G A B : Type} (m : M G A) (k : A -> M G B) : M G B :=
  fun g =>
    match m g with
    | Ok (a, g') => k a g'
    | Raise e => Raise e
    end.

Definition of_result {G A : Type} (r : result A) : M G A :=
  fun g =>
    match r with
    | Ok a => Ok (a, g)
    | Raise e => Raise e
    end.

Definition lift {G A : Type} (f : G -> A * G) : M G A := fun g => Ok (f g).

Declare Scope gen_scope.
Delimit Scope gen_scope with gen.
Notation "x <- m ;; k" := (bind m (fun x => k))
  (at level 61, m at next level, right associativity) : gen_scope.

(** ** Runtime services

    The order in which Python iterates over a set of strings depends on
    the hashes of the strings; the generator only relies on [list(s)]
    enumerating the elements of [s] once each.  The argument of
    [list_of_set] is the sequence of values added to the set. *)
Record SetOrder := {
  list_of_set : list string -> list string;
  list_of_set_NoDup : forall l, NoDup (list_of_set l);
  list_of_set_In : forall l x, In x (list_of_set l) <-> In x l
}.

(** The [random] module: [random.shuffle] rearranges a list, and
    [random.sample(population, k)] returns [k] elements taken at distinct
    positions of the population, raising [ValueError] when [k] is negative
    or larger than the population. *)
Record RandomSource := {
  rng : Type;
  shuffle : list string -> rng -> list string * rng;
  sample : list string -> Z -> M rng (list string);
  shuffle_perm : forall l g, Permutation l (fst (shuffle l g));
  sample_ok : forall l k g,
    (0 <= k <= Z.of_nat (List.length l))%Z ->
    exists p g', Permutation l p /\ sample l k g = Ok (firstn (Z.to_nat k) p, g');
  sample_raise : forall l k g,
    ~ (0 <= k <= Z.of_nat (List.length l))%Z -> sample l k g = Raise ValueError
}.

(** ** The generator *)

Definition len {A : Type} (l : list A) : Z := Z.of_nat (List.length l).

(** The entity labels accepted as answers (line 85). *)
Definition accepted_labels : list string :=
  ["GPE"; "LOC"; "ORG"; "PERSON"; "NORP"; "FAC"; "PRODUCT"; "EVENT";
   "WORK_OF_ART"; "LAW"; "LANGUAGE"; "PERCENT"; "MONEY"; "QUANTITY";
   "ORDINAL"].

(** The blank marker (line 104). *)
Definition blank : string := "______".

(** [not answer_candidate]: [None] and the empty string are falsy. *)
Definition falsy (v : option string) : bool :=
  match v with
  | None => true
  | Some "" => true
  | Some _ => false
  end.

(** Lines 84-87: the loop over [sent.ents], leaving at the first entity
    whose label is accepted. *)
Fixpoint entity_loop (ents : list Entity) (answer_candidate : option string)
  : option string :=
  match ents with
  | [] => answer_candidate
  | ent :: rest =>
      if PyStr.mem (ent_label ent) accepted_labels
      then Some (ent_text ent)
      else entity_loop rest answer_candidate
  end.

(** The test of line 93 on a noun chunk. *)
Definition chunk_ok (chunk : NounChunk) : bool :=
  (1 <? List.length (PyStr.split (chunk_text chunk)))%nat
  && (5 <? String.length (chunk_text chunk))%nat
  && (chunk_root_pos chunk =? "NOUN").

(** Lines 91-95: the loop over [sent.noun_chunks]. *)
Fixpoint chunk_loop (chunks : list NounChunk) (answer_candidate : option string)
  : option string :=
  match chunks with
  | [] => answer_candidate
  | chunk :: rest =>
      if chunk_ok chunk
      then Some (chunk_text chunk)
      else chunk_loop rest answer_candidate
  end.

(** Lines 82-95: the value of [answer_candidate] after both steps. *)
Definition find_candidate (sent : Sentence) : option string :=
  let answer_candidate := entity_loop (sent_ents sent) None in
  if falsy answer_candidate
  then chunk_loop (sent_noun_chunks sent) answer_candidate
  else answer_candidate.

(** Lines 82-102: the answer of a sentence, [None] when the sentence is
    left by one of the two [continue]s. *)
Definition pick_answer (sent : Sentence) : option string :=
  let answer_candidate := find_candidate sent in
  if falsy answer_candidate then None
  else match answer_candidate with
       | None => None
       | Some a =>
           if falsy (Some (PyStr.strip a))
              || (String.length (PyStr.strip a) <? 3)%nat
           then None
           else Some a
       end.

(** Lines 104-108: the masked question, [None] when the sentence is left
    by the [continue] of line 108. *)
Definition mask_question (sentence answer_candidate : string) : option string :=
  let question_text := PyStr.replace answer_candidate blank 1 sentence in
  if PyStr.contains (PyStr.lower answer_candidate) (PyStr.lower question_text)
     && negb (PyStr.contains blank question_text)
  then None
  else Some question_text.

(** Line 114: [answer_candidate.split()[-1] if ' ' in answer_candidate
    else answer_candidate]; indexing an empty list raises. *)
Definition target_word (answer_candidate : string) : result string :=
  if PyStr.contains " " answer_candidate
  then match rev (PyStr.split answer_candidate) with
       | w :: _ => Ok w
       | [] => Raise IndexError
       end
  else Ok answer_candidate.

(** Lines 119-127: the entities and nouns of the whole document kept as
    fallback distractors for the answer at hand. *)
Definition fallback_candidates (doc : Doc) (answer_candidate : string)
  : list string :=
  (map ent_text
     (filter (fun other_ent =>
                negb (PyStr.lower (ent_text other_ent) =? PyStr.lower answer_candidate)
                && (List.length (PyStr.split (ent_text other_ent)) <? 4)%nat)
        (doc_ents doc))
   ++ map tok_text
     (filter (fun token =>
                (tok_pos token =? "NOUN")
                && negb (PyStr.lower (tok_text token) =? PyStr.lower answer_candidate)
                && (2 <? String.length (tok_text token))%nat)
        (doc_tokens doc)))%list.

(** Lines 130-134: the shuffled fallback candidates are appended to the
    pool, leaving once the pool holds [num_distractors * 2] entries. *)
Fixpoint extend_pool (num_distractors : Z) (temp possible_distractors : list string)
  : list string :=
  match temp with
  | [] => possible_distractors
  | d_text :: rest =>
      if negb (PyStr.mem d_text possible_distractors)
      then let possible' := (possible_distractors ++ [d_text])%list in
           if (num_distractors * 2 <=? len possible')%Z
           then possible'
           else extend_pool num_distractors rest possible'
      else extend_pool num_distractors rest possible_distractors
  end.

(** Lines 138-143: the distractors kept from the pool. *)
Fixpoint select_loop (num_distractors : Z) (answer_candidate : string)
  (possible_distractors final_distractors : list string) : list string :=
  match possible_distractors with
  | [] => final_distractors
  | d :: rest =>
      if negb (PyStr.lower d =? PyStr.lower answer_candidate)
         && negb (PyStr.mem (PyStr.lower d) (map PyStr.lower final_distractors))
      then let final' := (final_distractors ++ [d])%list in
           if (num_distractors <=? len final')%Z
           then final'
           else select_loop num_distractors answer_candidate rest final'
      else select_loop num_distractors answer_candidate rest final_distractors
  end.

(** The f-string of line 147. *)
Definition placeholder (k : nat) : string := "Option " ++ PyStr.str_of_nat k.

(** Lines 146-147: the [while] loop that pads with placeholders; [fuel]
    bounds the number of rounds. *)
Fixpoint pad_loop (fuel : nat) (num_distractors : Z) (final_distractors : list string)
  : list string :=
  match fuel with
  | O => final_distractors
  | S fuel' =>
      if (len final_distractors <? num_distractors)%Z
      then pad_loop fuel' num_distractors
             (final_distractors
              ++ [placeholder (List.length final_distractors + 1)])%list
      else final_distractors
  end.

(** The loop is run with one round per missing distractor. *)
Definition pad (num_distractors : Z) (final_distractors : list string)
  : list string :=
  pad_loop (Z.to_nat (num_distractors - len final_distractors))
    num_distractors final_distractors.

Section Generator.

Local Open Scope gen_scope.

(** The annotator [nlp], [wordnet.synsets], and the runtime. *)
Variable nlp : string -> Doc.
Variable synsets : string -> list Synset.
Variable order : SetOrder.
Variable R : RandomSource.

(** Lines 63-71. *)
Definition get_synonyms (word : string) : list string :=
  list_of_set order
    (flat_map
       (fun syn =>
          flat_map
            (fun lemma_name =>
               let synonym := PyStr.replace "_" " " (-1) lemma_name in
               if negb (PyStr.lower synonym =? PyStr.lower word)
               then [synonym] else [])
            syn)
       (synsets word)).

(** Lines 115-134: the pool of possible distractors. *)
Definition distractor_pool (doc : Doc) (num_distractors : Z)
  (answer_candidate target : string) : M (rng R) (list string) :=
  let possible_distractors := get_synonyms target in
  if (len possible_distractors <? num_distractors)%Z
  then temp <- lift (shuffle R (fallback_candidates doc answer_candidate)) ;;
       ret (extend_pool num_distractors temp possible_distractors)
  else ret possible_distractors.

(** Lines 111-152: the options of a flashcard. *)
Definition make_options (doc : Doc) (num_distractors : Z)
  (answer_candidate : string) : M (rng R) (list string) :=
  target <- of_result (target_word answer_candidate) ;;
  possible_distractors <- distractor_pool doc num_distractors answer_candidate target ;;
  let final_distractors :=
    pad num_distractors
      (select_loop num_distractors answer_candidate possible_distractors []) in
  picked <- sample R final_distractors
              (Z.min (len final_distractors) num_distractors) ;;
  lift (shuffle R (answer_candidate :: picked)).

(** The body of the loop over [doc.sents] (lines 78-159): the flashcard
    appended for the sentence, [None] when the sentence is left by a
    [continue]. *)
Definition process_sentence (doc : Doc) (num_distractors : Z) (sent : Sentence)
  : M (rng R) (option Flashcard) :=
  let sentence := PyStr.strip (sent_text sent) in
  if falsy (Some sentence) then ret None
  else match pick_answer sent with
       | None => ret None
       | Some answer_candidate =>
           match mask_question sentence answer_candidate with
           | None => ret None
           | Some question_text =>
               opts <- make_options doc num_distractors answer_candidate ;;
               ret (Some {| card_type := "mcq";
                            question := PyStr.strip question_text;
                            answer := PyStr.strip answer_candidate;
                            options := opts |})
           end
       end.

(** The loop of line 77 over the sentences, with the list being built. *)
Fixpoint sentence_loop (doc : Doc) (num_distractors : Z)
  (sents : list Sentence) (flashcards : list Flashcard)
  : M (rng R) (list Flashcard) :=
  match sents with
  | [] => ret flashcards
  | sent :: rest =>
      card <- process_sentence doc num_distractors sent ;;
      sentence_loop doc num_distractors rest
        match card with
        | Some c => (flashcards ++ [c])%list
        | None => flashcards
        end
  end.

(** Lines 73-161. *)
Definition generate_mcq_flashcards (doc_text : string) (num_distractors : Z)
  : M (rng R) (list Flashcard) :=
  let doc := nlp doc_text in
  sentence_loop doc num_distractors (doc_sents doc) [].

End Generator.

(** ** The HTTP endpoint ([api_server.py]) *)

(** The request body, [TextInput]. *)
Record TextInput := { text : string }.

(** [HTTPException(status_code=..., detail=...)]. *)
Record HTTPException := { status_code : Z; detail : string }.

(** The dictionary the endpoint answers with; it has the key "message"
    only when no flashcard was made. *)
Record Body := { message : option string; flashcards : list Flashcard }.

(** The outcome of a request: an answer, with the state the random source
    is left in, or an HTTP error. *)
Inductive response (G : Type) : Type :=
| Respond (body : Body) (g : G)
| Abort (e : HTTPException).
Arguments Respond {G} body g.
Arguments Abort {G} e.

(** [str(e)] for the exceptions the generator can raise: the message of
    [random.sample] and the message of list indexing. *)
Definition exn_str (e : exn) : string :=
  match e with
  | ValueError => "Sample larger than population or is negative"
  | IndexError => "list index out of range"
  end.

Section Endpoint.

Variable nlp : string -> Doc.
Variable synsets : string -> list Synset.
Variable order : SetOrder.
Variable R : RandomSource.

(** Lines 28-43 of [api_server.py]; the generator is called with its
    default of three distractors. *)
Definition create_flashcards (data : TextInput) (g : rng R) : response (rng R) :=
  if falsy (Some (text data)) || (String.length (text data) <? 50)%nat
  then Abort {| status_code := 400;
                detail := "Input text is too short or empty." |}
  else match generate_mcq_flashcards nlp synsets order R (text data) 3 g with
       | Ok (cards, g') =>
           match cards with
           | [] =>
               Respond
                 {| message := Some "No flashcards could be generated from the provided text. Try a different text.";
                    flashcards := [] |} g'
           | _ => Respond {| message := None; flashcards := cards |} g'
           end
       | Raise e =>
           Abort {| status_code := 500;
                    detail := "Internal server error: " ++ exn_str e |}
       end.

End Endpoint.

(** ** Notions used in the statements *)

(** The label of the entity is one of the accepted ones. *)
Definition accepted (e : Entity) : Prop := In (ent_label e) accepted_labels.

(** The noun chunk has more than one word, more than five characters and
    a root tagged NOUN. *)
Definition qualifies (c : NounChunk) : Prop :=
  1 < List.length (PyStr.split (chunk_text c))
  /\ 5 < String.length (chunk_text c)
  /\ chunk_root_pos c = "NOUN".

(** The question and answer a sentence gives, when it gives a flashcard:
    lines 78-108 without the distractors. *)
Definition qa_of_sentence (sent : Sentence) : option (string * string) :=
  let sentence := PyStr.strip (sent_text sent) in
  if falsy (Some sentence) then None
  else match pick_answer sent with
       | None => None
       | Some answer_candidate =>
           match mask_question sentence answer_candidate with
           | None => None
           | Some question_text =>
               Some (PyStr.strip question_text, PyStr.strip answer_candidate)
           end
       end.

Definition qa (c : Flashcard) : string * string := (question c, answer c).

Definition qa_pairs (sents : list Sentence) : list (string * string) :=
  flat_map (fun sent => match qa_of_sentence sent with
                        | Some p => [p]
                        | None => []
                        end) sents.

(** A sentence is left by one of the [continue]s of the loop body: it is
    empty, the answer picker finds no answer, or the masked question is
    turned down. *)
Definition rejected (sent : Sentence) : Prop :=
  PyStr.strip (sent_text sent) = ""
  \/ pick_answer sent = None
  \/ exists a, pick_answer sent = Some a
               /\ mask_question (PyStr.strip (sent_text sent)) a = None.

(** The question/answer pairs of a call. *)
Definition qa_result {G : Type} (r : result (list Flashcard * G))
  : result (list (string * string)) :=
  result_map (fun x => map qa (fst x)) r.

(** The flashcard [c] carries the masked question of the sentence [sent]
    and its trimmed answer candidate [cand]. *)
Definition made_from (sent : Sentence) (cand : string) (c : Flashcard) : Prop :=
  pick_answer sent = Some cand
  /\ mask_question (PyStr.strip (sent_text sent)) cand = Some (question c)
  /\ answer c = PyStr.strip cand.

(** Number of options equal to [x] up to case. *)
Definition count_ci (x : string) (l : list string) : nat :=
  List.length (filter (fun y => PyStr.lower y =? PyStr.lower x) l).

(** The entities and nouns of the document that may serve as fallback
    distractors, whatever the answer is. *)
Definition document_pool (doc : Doc) : list string :=
  (map ent_text
     (filter (fun e => (List.length (PyStr.split (ent_text e)) <? 4)%nat)
        (doc_ents doc))
   ++ map tok_text
     (filter (fun t => (tok_pos t =? "NOUN")
                       && (2 <? String.length (tok_text t))%nat)
        (doc_tokens doc)))%list.

Section Provenance.

Variable synsets : string -> list Synset.
Variable order : SetOrder.
Variable R : RandomSource.

(** [opts] are options made for the answer [cand]: the answer and [N] of
    the padded distractors, in some order. *)
Definition options_of (doc : Doc) (N : Z) (cand : string) (opts : list string)
  : Prop :=
  exists w pool g g1 p,
    target_word cand = Ok w
    /\ distractor_pool synsets order R doc N cand w g = Ok (pool, g1)
    /\ Permutation (pad N (select_loop N cand pool [])) p
    /\ Permutation (cand :: firstn (Z.to_nat N) p) opts.

(** The flashcard [c] is the one made for the sentence [sent]. *)
Definition card_of (doc : Doc) (N : Z) (sent : Sentence) (c : Flashcard) : Prop :=
  card_type c = "mcq"
  /\ qa_of_sentence sent = Some (qa c)
  /\ exists cand, pick_answer sent = Some cand
                  /\ options_of doc N cand (options c).

End Provenance.

(** ** Concrete runtimes, used to run the generator on examples *)

(** Iteration in insertion order. *)
Definition insertion_order : SetOrder :=
  {| list_of_set := nodup string_dec;
     list_of_set_NoDup := NoDup_nodup string_dec;
     list_of_set_In := fun l x => nodup_In string_dec l x |}.

(** A random source that reads its draws from a tape of numbers; an
    exhausted tape keeps giving 0. *)
Definition draw (g : list nat) : nat * list nat :=
  match g with
  | [] => (0, [])
  | x :: g' => (x, g')
  end.

Fixpoint insert_at (i : nat) (x : string) (l : list string) : list string :=
  match i, l with
  | O, _ => x :: l
  | S _, [] => [x]
  | S j, y :: t => y :: insert_at j x t
  end.

(** Every element is put at a drawn position among those already placed. *)
Fixpoint tape_shuffle (l : list string) (g : list nat) : list string * list nat :=
  match l with
  | [] => ([], g)
  | x :: t =>
      let (t', g1) := tape_shuffle t g in
      let (r, g2) := draw g1 in
      (insert_at (r mod S (List.length t')) x t', g2)
  end.

Definition tape_sample (l : list string) (k : Z) : M (list nat) (list string) :=
  fun g =>
    if ((0 <=? k) && (k <=? len l))%Z
    then let (p, g') := tape_shuffle l g in Ok (firstn (Z.to_nat k) p, g')
    else Raise ValueError.

Lemma insert_at_perm (i : nat) (x : string) (l : list string) :
  Permutation (x :: l) (insert_at i x l).
Proof.
  revert i; induction l as [|y t IH]; intros [|j]; simpl; auto.
  rewrite perm_swap. apply perm_skip, IH.
Qed.

Lemma tape_shuffle_perm (l : list string) (g : list nat) :
  Permutation l (fst (tape_shuffle l g)).
Proof.
  revert g; induction l as [|x t IH]; intros g; simpl; auto.
  specialize (IH g). destruct (tape_shuffle t g) as [t' g1].
  destruct (draw g1) as [r g2]. simpl in *.
  rewrite <- insert_at_perm. now apply perm_skip.
Qed.

Lemma tape_sample_ok (l : list string) (k : Z) (g : list nat) :
  (0 <= k <= Z.of_nat (List.length l))%Z ->
  exists p g', Permutation l p /\ tape_sample l k g = Ok (firstn (Z.to_nat k) p, g').
Proof.
  intros Hk. unfold tape_sample, len.
  replace ((0 <=? k) && (k <=? Z.of_nat (List.length l)))%Z with true
    by (symmetry; apply andb_true_iff; split; apply Z.leb_le; lia).
  pose proof (tape_shuffle_perm l g) as Hp.
  destruct (tape_shuffle l g) as [p g']. exists p, g'. split; auto.
Qed.

Lemma tape_sample_raise (l : list string) (k : Z) (g : list nat) :
  ~ (0 <= k <= Z.of_nat (List.length l))%Z -> tape_sample l k g = Raise ValueError.
Proof.
  intros Hk. unfold tape_sample, len.
  destruct (0 <=? k)%Z eqn:H0; simpl; auto.
  destruct (k <=? Z.of_nat (List.length l))%Z eqn:H1; auto.
  apply Z.leb_le in H0, H1. lia.
Qed.

Definition tape_random : RandomSource :=
  {| rng := list nat;
     shuffle := tape_shuffle;
     sample := tape_sample;
     shuffle_perm := tape_shuffle_perm;
     sample_ok := tape_sample_ok;
     sample_raise := tape_sample_raise |}.

(** ** Stub collaborators and sample documents *)

(** An annotator that answers with a prepared document. *)
Definition stub_nlp (doc : Doc) : string -> Doc := fun _ => doc.

(** A lexical database without entries. *)
Definition no_synsets : string -> list Synset := fun _ => [].

Definition paris_text : string :=
  "The capital city of France is Paris. Paris is famous for the Eiffel Tower and the Louvre Museum.".

(** The two sentences of [paris_text], with "Paris" tagged in the first
    and "Eiffel Tower" in the second. *)
Definition capital_sentence : Sentence :=
  {| sent_text := "The capital city of France is Paris.";
     sent_ents := [ {| ent_text := "Paris"; ent_label := "GPE" |} ];
     sent_noun_chunks :=
       [ {| chunk_text := "The capital city"; chunk_root_pos := "NOUN" |};
         {| chunk_text := "France"; chunk_root_pos := "PROPN" |};
         {| chunk_text := "Paris"; chunk_root_pos := "PROPN" |} ] |}.

Definition tower_sentence : Sentence :=
  {| sent_text := "Paris is famous for the Eiffel Tower and the Louvre Museum.";
     sent_ents := [ {| ent_text := "Eiffel Tower"; ent_label := "FAC" |} ];
     sent_noun_chunks :=
       [ {| chunk_text := "Paris"; chunk_root_pos := "PROPN" |};
         {| chunk_text := "the Eiffel Tower"; chunk_root_pos := "PROPN" |};
         {| chunk_text := "the Louvre Museum"; chunk_root_pos := "PROPN" |} ] |}.

Definition paris_doc : Doc :=
  {| doc_sents := [capital_sentence; tower_sentence];
     doc_ents :=
       [ {| ent_text := "Paris"; ent_label := "GPE" |};
         {| ent_text := "Eiffel Tower"; ent_label := "FAC" |} ];
     doc_tokens :=
       [ {| tok_text := "The"; tok_pos := "DET" |};
         {| tok_text := "capital"; tok_pos := "NOUN" |};
         {| tok_text := "city"; tok_pos := "NOUN" |};
         {| tok_text := "of"; tok_pos := "ADP" |};
         {| tok_text := "France"; tok_pos := "PROPN" |};
         {| tok_text := "is"; tok_pos := "AUX" |};
         {| tok_text := "Paris"; tok_pos := "PROPN" |};
         {| tok_text := "."; tok_pos := "PUNCT" |} ] |}.

(** A document of one sentence. *)
Definition one_sentence (sent : Sentence) (tokens : list Token) : Doc :=
  {| doc_sents := [sent]; doc_ents := sent_ents sent; doc_tokens := tokens |}.

(** "Choose option 2 now.", whose only noun chunk is "option 2". *)
Definition option_sentence : Sentence :=
  {| sent_text := "Choose option 2 now.";
     sent_ents := [];
     sent_noun_chunks := [ {| chunk_text := "option 2"; chunk_root_pos := "NOUN" |} ] |}.

Definition option_doc : Doc :=
  one_sentence option_sentence
    [ {| tok_text := "Choose"; tok_pos := "VERB" |};
      {| tok_text := "option"; tok_pos := "NOUN" |};
      {| tok_text := "2"; tok_pos := "NUM" |};
      {| tok_text := "now"; tok_pos := "ADV" |};
      {| tok_text := "."; tok_pos := "PUNCT" |} ].

(** A document whose sentences all leave the loop early: a blank
    sentence, one without entity or noun chunk, one whose only entity is
    too short. *)
Definition barren_doc : Doc :=
  {| doc_sents :=
       [ {| sent_text := "   "; sent_ents := []; sent_noun_chunks := [] |};
         {| sent_text := "It rains."; sent_ents := [];
            sent_noun_chunks := [ {| chunk_text := "It"; chunk_root_pos := "PRON" |} ] |};
         {| sent_text := "He moved to LA.";
            sent_ents := [ {| ent_text := "LA"; ent_label := "GPE" |} ];
            sent_noun_chunks := [ {| chunk_text := "He"; chunk_root_pos := "PRON" |} ] |} ];
     doc_ents := [ {| ent_text := "LA"; ent_label := "GPE" |} ];
     doc_tokens := [] |}.

(** A sentence that already holds a blank and names its entity twice. *)
Definition blank_text : string :=
  "The blank ______ stands for Paris, and Paris is in France.".

Definition blank_sentence : Sentence :=
  {| sent_text := blank_text;
     sent_ents := [ {| ent_text := "Paris"; ent_label := "GPE" |};
                    {| ent_text := "Paris"; ent_label := "GPE" |};
                    {| ent_text := "France"; ent_label := "GPE" |} ];
     sent_noun_chunks := [] |}.

Definition blank_doc : Doc :=
  one_sentence blank_sentence
    [ {| tok_text := "blank"; tok_pos := "NOUN" |} ].

(** Two WordNet synsets of "dog": the animal and the sausage. *)
Definition dog_synsets : string -> list Synset :=
  fun word =>
    if word =? "dog"
    then [ ["dog"; "domestic_dog"; "Canis_familiaris"];
           ["frank"; "frankfurter"; "hotdog"; "hot_dog"; "dog"; "wiener";
            "wienerwurst"; "weenie"] ]
    else [].

(** An answer of two words separated by a tabulation. *)
Definition tabbed_answer : string := "New" ++ String "009"%char "York".

(** * Properties *)

(** ** The operations on examples *)

Example strip_ex : PyStr.strip "  The  capital " = "The  capital".
Proof. reflexivity. Qed.

Example split_ex : PyStr.split " Eiffel  Tower " = ["Eiffel"; "Tower"].
Proof. reflexivity. Qed.

Example replace_first_ex :
  PyStr.replace "Paris" "______" 1 "Paris loves Paris." = "______ loves Paris.".
Proof. reflexivity. Qed.

Example replace_all_ex : PyStr.replace "_" " " (-1) "hot_dog_bun" = "hot dog bun".
Proof. reflexivity. Qed.

Example replace_empty_ex : PyStr.replace "" "-" (-1) "abc" = "-a-b-c-".
Proof. reflexivity. Qed.

Example replace_overlap_ex : PyStr.replace "aa" "b" (-1) "aaaaa" = "bba".
Proof. reflexivity. Qed.

Example lower_ex : PyStr.lower "Option 1" = "option 1".
Proof. reflexivity. Qed.

Example str_of_nat_ex : PyStr.str_of_nat 12 = "12".
Proof. reflexivity. Qed.

Example pad_ex : pad 3 ["option"] = ["option"; "Option 2"; "Option 3"].
Proof. reflexivity. Qed.

(** The two sentences about Paris, with three distractors and a tape of
    draws: two flashcards, four options each. *)
Example paris_ex :
  generate_mcq_flashcards (stub_nlp paris_doc) no_synsets insertion_order
    tape_random paris_text 3 [4; 1; 3; 0; 2; 5; 1; 7]
  = Ok ([ {| card_type := "mcq";
             question := "The capital city of France is ______.";
             answer := "Paris";
             options := ["Paris"; "city"; "Eiffel Tower"; "capital"] |};
          {| card_type := "mcq";
             question := "Paris is famous for the ______ and the Louvre Museum.";
             answer := "Eiffel Tower";
             options := ["Eiffel Tower"; "Paris"; "capital"; "city"] |} ], []).
Proof. vm_compute. reflexivity. Qed.

(** ** Facts about the string operations *)

Module PyStrFacts.
Import PyStr.

Lemma append_nil_r (s : string) : s ++ "" = s.
Proof. induction s; simpl; congruence. Qed.

Lemma append_assoc (x y z : string) : (x ++ y) ++ z = x ++ y ++ z.
Proof. induction x; simpl; congruence. Qed.

Lemma append_eq_nil (x y : string) : x ++ y = "" -> x = "" /\ y = "".
Proof. destruct x; simpl; [auto | discriminate]. Qed.

Lemma startswith_app (p s : string) : startswith p (p ++ s) = true.
Proof.
  induction p as [|a p IH]; simpl; [now destruct s|].
  now rewrite Ascii.eqb_refl.
Qed.

Lemma startswith_inv (p s : string) :
  startswith p s = true -> exists post, s = p ++ post.
Proof.
  revert s; induction p as [|a p IH]; intros s H.
  - now exists s.
  - destruct s as [|b s]; simpl in H; [discriminate|].
    apply andb_true_iff in H as [Hab H]. apply Ascii.eqb_eq in Hab; subst b.
    destruct (IH _ H) as [post ->]. now exists post.
Qed.

Lemma startswith_contains (sub s : string) :
  startswith sub s = true -> contains sub s = true.
Proof. intros H. destruct s; cbn [contains]; now rewrite H. Qed.

Lemma drop_app (x y : string) : drop (String.length x) (x ++ y) = y.
Proof. induction x; simpl; auto. Qed.

Lemma contains_first (sub s : string) :
  contains sub s = true -> exists pre post, first_occurrence sub s pre post.
Proof.
  induction s as [|c s IH]; intros H.
  - simpl in H. rewrite orb_false_r in H.
    destruct (startswith_inv _ _ H) as [post E].
    exists "", post. split; [exact E | simpl; intros; lia].
  - destruct (startswith sub (String c s)) eqn:Hs.
    + destruct (startswith_inv _ _ Hs) as [post E].
      exists "", post. split; [exact E | simpl; intros; lia].
    + simpl in H. simpl in Hs. rewrite Hs in H. simpl in H.
      destruct (IH H) as (pre & post & E & Hk).
      exists (String c pre), post. split; [simpl; now rewrite E|].
      intros [|k] Hlt; [exact Hs|]. simpl in Hlt. simpl. apply Hk. lia.
Qed.

Lemma replace_scan_0 (old new : string) (k : nat) (s : string) :
  replace_scan old new 0 k s = drop k s.
Proof.
  revert k; induction s as [|c s IH]; intros [|k]; simpl; auto.
Qed.

Lemma replace_once (old new s : string) :
  old <> "" -> replace old new 1 s = replace_scan old new 1 0 s.
Proof. destruct old; [congruence | reflexivity]. Qed.

(** What [replace] with count 1 does when [old] occurs. *)
Lemma replace_first (old new s pre post : string) :
  old <> "" -> first_occurrence old s pre post ->
  replace old new 1 s = pre ++ new ++ post.
Proof.
  intros Hold [E Hk]. rewrite replace_once by assumption.
  destruct old as [|a old]; [congruence|]. clear Hold.
  revert s E Hk. induction pre as [|c pre IH]; intros s E Hk; subst s.
  - cbn [append replace_scan]. change (String a (old ++ post)) with (String a old ++ post).
    rewrite startswith_app, replace_scan_0.
    change (String.length (String a old) - 1) with (String.length old - 0).
    now rewrite Nat.sub_0_r, drop_app.
  - cbn [append replace_scan]. 
    pose proof (Hk 0 ltac:(simpl; lia)) as H0. cbn [drop append] in H0.
    rewrite H0. f_equal. apply IH; [reflexivity|].
    intros k Hlt. apply (Hk (S k)). simpl. lia.
Qed.

(** ... and when it does not. *)
Lemma replace_absent (old new s : string) :
  old <> "" -> contains old s = false -> replace old new 1 s = s.
Proof.
  intros Hold H. rewrite replace_once by assumption.
  induction s as [|c s IH]; [reflexivity|].
  cbn [replace_scan]. cbn [contains] in H. apply orb_false_iff in H as [H1 H2].
  rewrite H1. f_equal. auto.
Qed.

Lemma lstrip_head (s : string) : head_ok (lstrip s).
Proof.
  induction s as [|c s IH]; simpl; auto.
  destruct (isspace c) eqn:E; simpl; auto.
Qed.

Lemma lstrip_id (s : string) : head_ok s -> lstrip s = s.
Proof. destruct s as [|c s]; simpl; auto. now intros ->. Qed.

Lemma rstrip_head (s : string) : head_ok s -> head_ok (rstrip s).
Proof.
  destruct s as [|c s]; simpl; auto. intros H.
  destruct (rstrip s); [rewrite H|]; simpl; auto.
Qed.

Lemma rstrip_idem (s : string) : rstrip (rstrip s) = rstrip s.
Proof.
  induction s as [|c s IH]; simpl; auto.
  destruct (rstrip s) as [|d t] eqn:E.
  - destruct (isspace c) eqn:Ec; simpl; auto. now rewrite Ec.
  - cbn [rstrip] in *. now rewrite IH.
Qed.

Lemma strip_is_stripped (s : string) : is_stripped (strip s).
Proof.
  split; unfold strip.
  - apply rstrip_head, lstrip_head.
  - apply rstrip_idem.
Qed.

Lemma strip_id (s : string) : is_stripped s -> strip s = s.
Proof. intros [H1 H2]. unfold strip. now rewrite lstrip_id. Qed.

Lemma rstrip_app_r (x y : string) :
  rstrip y <> "" -> rstrip (x ++ y) = x ++ rstrip y.
Proof.
  intros Hy. induction x as [|c x IH]; cbn [append rstrip]; auto.
  rewrite IH. destruct (x ++ rstrip y) eqn:E; auto.
  apply append_eq_nil in E as [_ E]. congruence.
Qed.

Lemma rstrip_app_inv (x y : string) :
  rstrip (x ++ y) = x ++ y -> y <> "" -> rstrip y = y.
Proof.
  intros H Hy. induction x as [|c x IH]; auto.
  cbn [append rstrip] in H. apply IH.
  destruct (rstrip (x ++ y)) eqn:E.
  - assert (x ++ y = "") as E'
      by (destruct (isspace c); [discriminate | now injection H]).
    apply append_eq_nil in E' as [_ E']. congruence.
  - now injection H.
Qed.

(** Replacing an inner part of a trimmed string by a trimmed, non-empty
    string leaves it trimmed. *)
Lemma stripped_splice (pre old new post : string) :
  is_stripped (pre ++ old ++ post) -> is_stripped new -> new <> "" ->
  is_stripped (pre ++ new ++ post).
Proof.
  intros [Hh Hr] [Nh Nr] Hn. split.
  - destruct pre; [|exact Hh]. destruct new; [congruence | exact Nh].
  - destruct post as [|c post].
    + rewrite append_nil_r, rstrip_app_r; congruence.
    + rewrite <- !append_assoc in *.
      apply rstrip_app_inv in Hr; [|discriminate].
      rewrite rstrip_app_r; rewrite Hr; [reflexivity | discriminate].
Qed.

Lemma split_scan_word (word s : string) :
  word <> "" -> split_scan word s <> [].
Proof.
  revert word; induction s as [|c s IH]; intros word Hw; cbn [split_scan].
  - destruct word; [congruence | discriminate].
  - destruct (isspace c).
    + destruct word; [congruence | discriminate].
    + apply IH. intros E. apply append_eq_nil in E as [_ E]. discriminate.
Qed.

(** A string with a non-whitespace character has a word. *)
Lemma split_nonempty (s : string) : strip s <> "" -> split s <> [].
Proof.
  unfold strip, split. intros H.
  assert (lstrip s <> "") as Hl by (intros E; now rewrite E in H).
  clear H. generalize "" as word.
  induction s as [|c s IH]; intros word; [now simpl in Hl|].
  cbn [split_scan lstrip] in *. destruct (isspace c).
  - destruct word; [auto | discriminate].
  - apply split_scan_word. intros E.
    apply append_eq_nil in E as [_ E]. discriminate.
Qed.

End PyStrFacts.

(** ** The distractor loops *)

Lemma len_app {A : Type} (l : list A) (x : A) :
  len (l ++ [x])%list = (len l + 1)%Z.
Proof. unfold len. rewrite length_app. simpl. lia. Qed.

Lemma pad_loop_length (N : Z) (fuel : nat) (final : list string) :
  fuel = Z.to_nat (N - len final) ->
  len (pad_loop fuel N final) = Z.max (len final) N.
Proof.
  revert final; induction fuel as [|fuel IH]; intros final Hf; simpl.
  - lia.
  - destruct (len final <? N)%Z eqn:E.
    + apply Z.ltb_lt in E. rewrite IH; rewrite len_app; lia.
    + apply Z.ltb_ge in E. lia.
Qed.

(** The padding loop ends with at least [N] distractors. *)
Lemma pad_length (N : Z) (final : list string) :
  len (pad N final) = Z.max (len final) N.
Proof. now apply pad_loop_length. Qed.

(** On leaving, the condition of the [while] loop is false ... *)
Lemma pad_done (N : Z) (final : list string) :
  (len (pad N final) <? N)%Z = false.
Proof. apply Z.ltb_ge. rewrite pad_length. lia. Qed.

(** ... and more rounds would not change the result. *)
Lemma pad_loop_enough (N : Z) (fuel : nat) (final : list string) :
  Z.to_nat (N - len final) <= fuel -> pad_loop fuel N final = pad N final.
Proof.
  unfold pad. revert final.
  induction fuel as [|fuel IH]; intros final Hf.
  - now replace (Z.to_nat (N - len final)) with 0 by lia.
  - cbn [pad_loop]. destruct (len final <? N)%Z eqn:E.
    + assert (len final < N)%Z as Hlt by now apply Z.ltb_lt.
      assert (forall m, m = (len final + 1)%Z ->
                        S (Z.to_nat (N - m)) = Z.to_nat (N - len final)) as Hm
        by (intros; lia).
      rewrite <- (Hm _ (len_app final (placeholder (List.length final + 1)))).
      cbn [pad_loop]. rewrite E. apply IH. rewrite len_app. lia.
    + apply Z.ltb_ge in E.
      now replace (Z.to_nat (N - len final)) with 0 by lia.
Qed.

Lemma pad_sample_size (N : Z) (final : list string) :
  (0 <= N)%Z -> Z.min (len (pad N final)) N = N.
Proof. intros H. rewrite pad_length. lia. Qed.

(** The distractors kept from the pool differ from the answer and from
    each other, whatever their case. *)
Lemma select_loop_sound (N : Z) (a : string) (pool final : list string) :
  ~ In (PyStr.lower a) (map PyStr.lower final) ->
  NoDup (map PyStr.lower final) ->
  ~ In (PyStr.lower a) (map PyStr.lower (select_loop N a pool final))
  /\ NoDup (map PyStr.lower (select_loop N a pool final)).
Proof.
  revert final; induction pool as [|d rest IH]; intros final Ha Hn; simpl; auto.
  destruct (PyStr.lower d =? PyStr.lower a) eqn:Ea; simpl; auto.
  destruct (PyStr.mem (PyStr.lower d) (map PyStr.lower final)) eqn:Em; simpl; auto.
  assert (~ In (PyStr.lower a) (map PyStr.lower (final ++ [d])%list)
          /\ NoDup (map PyStr.lower (final ++ [d])%list)) as [Ha' Hn'].
  { rewrite map_app. simpl. split.
    - rewrite in_app_iff. simpl. apply String.eqb_neq in Ea. intuition.
    - apply NoDup_app; auto.
      + repeat constructor. auto.
      + intros x Hx [<-|[]].
        assert (PyStr.mem (PyStr.lower d) (map PyStr.lower final) = true);
          [|congruence].
        apply existsb_exists. exists (PyStr.lower d). split; auto.
        apply String.eqb_refl. }
  destruct (N <=? len (final ++ [d])%list)%Z; auto.
Qed.

(** ** The generator, sentence by sentence *)

Lemma falsy_false (s : string) : falsy (Some s) = false <-> s <> "".
Proof. destruct s; simpl; split; congruence. Qed.

Lemma pick_answer_strip (sent : Sentence) (a : string) :
  pick_answer sent = Some a ->
  PyStr.strip a <> "" /\ 3 <= String.length (PyStr.strip a).
Proof.
  unfold pick_answer. destruct (falsy (find_candidate sent)); [discriminate|].
  destruct (find_candidate sent) as [c|]; [|discriminate].
  destruct (falsy (Some (PyStr.strip c))) eqn:Ef; [discriminate|].
  destruct (String.length (PyStr.strip c) <? 3)%nat eqn:El; [discriminate|].
  intros [= <-]. split; [now apply falsy_false | now apply Nat.ltb_ge].
Qed.

Lemma strip_nonempty (a : string) : PyStr.strip a <> "" -> a <> "".
Proof. intros H ->. now apply H. Qed.

Lemma target_word_ok (a : string) :
  PyStr.strip a <> "" -> exists w, target_word a = Ok w.
Proof.
  intros H. unfold target_word. destruct (PyStr.contains " " a); eauto.
  destruct (rev (PyStr.split a)) as [|w ws] eqn:E; eauto.
  apply (f_equal (@rev string)) in E. rewrite rev_involutive in E.
  now apply PyStrFacts.split_nonempty in H.
Qed.

(** The answer of a flashcard is the trimmed answer candidate. *)
Lemma qa_answer (sent : Sentence) (cand : string) (p : string * string) :
  qa_of_sentence sent = Some p -> pick_answer sent = Some cand ->
  snd p = PyStr.strip cand.
Proof.
  unfold qa_of_sentence. intros H Hp. rewrite Hp in H.
  destruct (falsy (Some (PyStr.strip (sent_text sent)))); [discriminate|].
  destruct (mask_question (PyStr.strip (sent_text sent)) cand); [|discriminate].
  now injection H as <-.
Qed.

Section GeneratorFacts.

Variable nlp : string -> Doc.
Variable synsets : string -> list Synset.
Variable order : SetOrder.
Variable R : RandomSource.

Lemma distractor_pool_ok (doc : Doc) (N : Z) (a w : string) (g : rng R) :
  exists pool g', distractor_pool synsets order R doc N a w g = Ok (pool, g').
Proof.
  unfold distractor_pool, bind, lift, ret.
  destruct (len (get_synonyms synsets order w) <? N)%Z; eauto.
  destruct (shuffle R (fallback_candidates doc a) g); eauto.
Qed.

(** For a non-negative number of distractors the options are made. *)
Lemma make_options_ok (doc : Doc) (N : Z) (a : string) (g : rng R) :
  PyStr.strip a <> "" -> (0 <= N)%Z ->
  exists opts g',
    make_options synsets order R doc N a g = Ok (opts, g')
    /\ options_of synsets order R doc N a opts.
Proof.
  intros Ha HN. unfold make_options, bind.
  destruct (target_word_ok a Ha) as [w Hw]. rewrite Hw. cbn [of_result].
  destruct (distractor_pool_ok doc N a w g) as (pool & g1 & Hpool).
  rewrite Hpool, pad_sample_size by assumption.
  destruct (sample_ok R (pad N (select_loop N a pool [])) N g1)
    as (p & g2 & Hp & ->).
  { pose proof (pad_length N (select_loop N a pool [])). unfold len in *. lia. }
  unfold lift. pose proof (shuffle_perm R (a :: firstn (Z.to_nat N) p) g2) as Hs.
  destruct (shuffle R (a :: firstn (Z.to_nat N) p) g2) as [opts g3].
  exists opts, g3. split; [reflexivity|]. now exists w, pool, g, g1, p.
Qed.

(** For a negative number [random.sample] raises. *)
Lemma make_options_raise (doc : Doc) (N : Z) (a : string) (g : rng R) :
  PyStr.strip a <> "" -> (N < 0)%Z ->
  make_options synsets order R doc N a g = Raise ValueError.
Proof.
  intros Ha HN. unfold make_options, bind.
  destruct (target_word_ok a Ha) as [w ->]. cbn [of_result].
  destruct (distractor_pool_ok doc N a w g) as (pool & g1 & ->).
  rewrite sample_raise; [reflexivity | unfold len; lia].
Qed.

Lemma options_of_length (doc : Doc) (N : Z) (cand : string) (opts : list string) :
  (0 <= N)%Z -> options_of synsets order R doc N cand opts -> len opts = (N + 1)%Z.
Proof.
  intros HN (w & pool & g & g1 & p & _ & _ & Hp & Ho).
  pose proof (pad_length N (select_loop N cand pool [])) as Hl.
  unfold len in *. rewrite <- (Permutation_length Ho). simpl.
  rewrite length_firstn, <- (Permutation_length Hp). lia.
Qed.

Lemma options_of_zero (doc : Doc) (cand : string) (opts : list string) :
  options_of synsets order R doc 0 cand opts -> opts = [cand].
Proof.
  intros (w & pool & g & g1 & p & _ & _ & _ & Ho).
  now apply Permutation_length_1_inv in Ho.
Qed.

(** What the loop body does, read off the question/answer skeleton. *)
Lemma process_sentence_none (doc : Doc) (N : Z) (sent : Sentence) (g : rng R) :
  qa_of_sentence sent = None ->
  process_sentence synsets order R doc N sent g = Ok (None, g).
Proof.
  unfold qa_of_sentence, process_sentence.
  destruct (falsy (Some (PyStr.strip (sent_text sent)))); auto.
  destruct (pick_answer sent) as [a|]; auto.
  destruct (mask_question (PyStr.strip (sent_text sent)) a); auto.
  discriminate.
Qed.

Lemma process_sentence_some (doc : Doc) (N : Z) (sent : Sentence) (g : rng R)
  (p : string * string) :
  qa_of_sentence sent = Some p -> (0 <= N)%Z ->
  exists c g',
    process_sentence synsets order R doc N sent g = Ok (Some c, g')
    /\ card_of synsets order R doc N sent c.
Proof.
  unfold card_of, qa_of_sentence, process_sentence. intros H HN.
  destruct (falsy (Some (PyStr.strip (sent_text sent)))); [discriminate|].
  destruct (pick_answer sent) as [cand|] eqn:Ep; [|discriminate].
  destruct (mask_question (PyStr.strip (sent_text sent)) cand); [|discriminate].
  destruct (pick_answer_strip _ _ Ep) as [Hs _].
  destruct (make_options_ok doc N cand g Hs HN) as (opts & g' & E & Ho).
  unfold bind, ret. rewrite E. eexists _, g'. split; [reflexivity|].
  cbn. repeat split. eauto.
Qed.

Lemma process_sentence_raise (doc : Doc) (N : Z) (sent : Sentence) (g : rng R)
  (p : string * string) :
  qa_of_sentence sent = Some p -> (N < 0)%Z ->
  process_sentence synsets order R doc N sent g = Raise ValueError.
Proof.
  unfold qa_of_sentence, process_sentence. intros H HN.
  destruct (falsy (Some (PyStr.strip (sent_text sent)))); [discriminate|].
  destruct (pick_answer sent) as [cand|] eqn:Ep; [|discriminate].
  destruct (mask_question (PyStr.strip (sent_text sent)) cand); [|discriminate].
  destruct (pick_answer_strip _ _ Ep) as [Hs _].
  unfold bind. now rewrite make_options_raise.
Qed.

(** *** The loop over the sentences *)

Lemma sentence_loop_ok (doc : Doc) (N : Z) (sents : list Sentence) :
  (0 <= N)%Z ->
  forall (acc : list Flashcard) (g : rng R),
  exists cards g',
    sentence_loop synsets order R doc N sents acc g = Ok ((acc ++ cards)%list, g')
    /\ map qa cards = qa_pairs sents
    /\ Forall (fun c => exists sent, In sent sents /\ card_of synsets order R doc N sent c) cards.
Proof.
  intros HN. induction sents as [|sent rest IH]; intros acc g.
  - exists [], g. rewrite app_nil_r. repeat split; constructor.
  - cbn [sentence_loop qa_pairs flat_map]. unfold bind.
    destruct (qa_of_sentence sent) as [p|] eqn:E.
    + destruct (process_sentence_some doc N sent g p E HN)
        as (c & g1 & -> & Hc).
      destruct (IH (acc ++ [c])%list g1) as (cards & g2 & -> & Hqa & Hall).
      exists (c :: cards), g2. rewrite <- app_assoc. split; [reflexivity|].
      destruct Hc as (Ht & Hq & Hc). split.
      * cbn [map app]. rewrite Hqa. rewrite E in Hq. injection Hq as ->.
        reflexivity.
      * constructor.
        -- exists sent. split; [now left|]. now repeat split.
        -- eapply Forall_impl; [|exact Hall].
           intros c' (s' & Hin & H'). exists s'. split; [now right | exact H'].
    + rewrite (process_sentence_none doc N sent g E).
      destruct (IH acc g) as (cards & g2 & -> & Hqa & Hall).
      exists cards, g2. repeat split; auto.
      eapply Forall_impl; [|exact Hall].
      intros c' (s' & Hin & H'). exists s'. split; [now right | exact H'].
Qed.

Lemma sentence_loop_nil (doc : Doc) (N : Z) (sents : list Sentence) :
  qa_pairs sents = [] ->
  forall (acc : list Flashcard) (g : rng R),
    sentence_loop synsets order R doc N sents acc g = Ok (acc, g).
Proof.
  induction sents as [|sent rest IH]; intros H acc g; [reflexivity|].
  cbn [sentence_loop qa_pairs flat_map] in *. unfold bind.
  destruct (qa_of_sentence sent) eqn:E; [discriminate|].
  rewrite (process_sentence_none doc N sent g E). now apply IH.
Qed.

Lemma sentence_loop_raise (doc : Doc) (N : Z) (sents : list Sentence) :
  (N < 0)%Z -> qa_pairs sents <> [] ->
  forall (acc : list Flashcard) (g : rng R),
    sentence_loop synsets order R doc N sents acc g = Raise ValueError.
Proof.
  intros HN. induction sents as [|sent rest IH]; intros H acc g; [now elim H|].
  cbn [sentence_loop qa_pairs flat_map] in *. unfold bind.
  destruct (qa_of_sentence sent) eqn:E.
  - now rewrite (process_sentence_raise doc N sent g p E HN).
  - rewrite (process_sentence_none doc N sent g E). now apply IH.
Qed.

(** For a non-negative number of distractors the call returns, and every
    flashcard it returns is the one made for a sentence of the document. *)
Lemma generate_ok (text : string) (N : Z) (g : rng R) :
  (0 <= N)%Z ->
  exists cards g',
    generate_mcq_flashcards nlp synsets order R text N g = Ok (cards, g')
    /\ map qa cards = qa_pairs (doc_sents (nlp text))
    /\ Forall (fun c => exists sent, In sent (doc_sents (nlp text))
                                     /\ card_of synsets order R (nlp text) N sent c) cards.
Proof.
  intros HN. unfold generate_mcq_flashcards.
  exact (sentence_loop_ok (nlp text) N (doc_sents (nlp text)) HN [] g).
Qed.

End GeneratorFacts.

Lemma rejected_iff (sent : Sentence) :
  rejected sent <-> qa_of_sentence sent = None.
Proof.
  unfold rejected, qa_of_sentence.
  destruct (falsy (Some (PyStr.strip (sent_text sent)))) eqn:Ef.
  - split; auto. intros _. left.
    destruct (PyStr.strip (sent_text sent)); [reflexivity | discriminate].
  - apply falsy_false in Ef.
    destruct (pick_answer sent) as [a|]; [|tauto].
    destruct (mask_question (PyStr.strip (sent_text sent)) a) eqn:Em.
    + split; [|discriminate].
      intros [H|[H|(b & [= <-] & H)]]; congruence.
    + split; auto. intros _. right. right. eauto.
Qed.

(** ** Size of the options, absence of errors, determinism *)

(** C2: for every text and every number [N >= 1] of distractors the call
    returns, and each flashcard it returns has exactly [N + 1] options,
    whatever the synonyms and fallback candidates are (the placeholders
    fill what is missing). *)
Theorem options_count (nlp : string -> Doc) (synsets : string -> list Synset)
  (order : SetOrder) (R : RandomSource) (text : string) (N : Z) (g : rng R) :
  (1 <= N)%Z ->
  exists cards g',
    generate_mcq_flashcards nlp synsets order R text N g = Ok (cards, g')
    /\ Forall (fun c => len (options c) = (N + 1)%Z) cards.
Proof.
  intros HN.
  destruct (generate_ok nlp synsets order R text N g ltac:(lia))
    as (cards & g' & E & _ & Hall).
  exists cards, g'. split; [exact E|].
  eapply Forall_impl; [|exact Hall].
  intros c (sent & _ & _ & _ & cand & _ & Ho).
  apply (options_of_length synsets order R (nlp text) N cand); [lia | exact Ho].
Qed.

(** A sentence without synonyms and without fallback candidates. *)
Lemma options_count_witness :
  (1 <= 3)%Z
  /\ exists cards g',
       generate_mcq_flashcards (stub_nlp (one_sentence capital_sentence []))
         no_synsets insertion_order tape_random
         "The capital city of France is Paris." 3 [4; 1; 3] = Ok (cards, g')
       /\ Forall (fun c => len (options c) = (3 + 1)%Z) cards.
Proof. split; [lia | apply options_count; lia]. Defined.

(** C8: when every sentence is left early (in particular when there is no
    sentence at all, or when the answer picker turns every sentence down),
    the call returns the empty list and raises nothing, for every number
    of distractors. *)
Theorem no_flashcard_no_error (nlp : string -> Doc)
  (synsets : string -> list Synset) (order : SetOrder) (R : RandomSource)
  (text : string) (N : Z) (g : rng R) :
  Forall rejected (doc_sents (nlp text)) ->
  generate_mcq_flashcards nlp synsets order R text N g = Ok ([], g).
Proof.
  intros H. unfold generate_mcq_flashcards. apply sentence_loop_nil.
  induction H as [|sent rest Hs _ IH]; [reflexivity|].
  apply rejected_iff in Hs. cbn [qa_pairs flat_map]. now rewrite Hs.
Qed.

Lemma no_flashcard_no_error_witness :
  Forall rejected (doc_sents (stub_nlp barren_doc "   It rains. He moved to LA."))
  /\ generate_mcq_flashcards (stub_nlp barren_doc) no_synsets insertion_order
       tape_random "   It rains. He moved to LA." 3 [4; 1; 3] = Ok ([], [4; 1; 3]).
Proof.
  assert (Forall rejected (doc_sents barren_doc)) as H.
  { unfold barren_doc; cbn [doc_sents].
    constructor; [now left|].
    constructor; [right; now left|].
    constructor; [right; now left|].
    constructor. }
  split; [exact H | apply no_flashcard_no_error; exact H].
Defined.

(** C9: the question/answer pairs of a call are fixed by the text, the
    annotator's answer and the number of distractors: two calls agree on
    them (and on whether an error is raised) whatever the two random
    sources, their states and the set orders are; in particular with the
    same random source. *)
Theorem same_questions_and_answers (nlp : string -> Doc)
  (synsets : string -> list Synset) (order1 order2 : SetOrder)
  (R1 R2 : RandomSource) (text : string) (N : Z) (g1 : rng R1) (g2 : rng R2) :
  qa_result (generate_mcq_flashcards nlp synsets order1 R1 text N g1)
  = qa_result (generate_mcq_flashcards nlp synsets order2 R2 text N g2).
Proof.
  unfold qa_result, generate_mcq_flashcards.
  destruct (qa_pairs (doc_sents (nlp text))) as [|p ps] eqn:E.
  - now rewrite !sentence_loop_nil.
  - destruct (Z_lt_le_dec N 0) as [HN|HN].
    + rewrite !sentence_loop_raise; auto; congruence.
    + destruct (sentence_loop_ok synsets order1 R1 (nlp text) N
                  (doc_sents (nlp text)) HN [] g1) as (c1 & g1' & -> & H1 & _).
      destruct (sentence_loop_ok synsets order2 R2 (nlp text) N
                  (doc_sents (nlp text)) HN [] g2) as (c2 & g2' & -> & H2 & _).
      cbn [result_map fst app]. congruence.
Qed.

(** C10: for [N >= 0] the size asked of [random.sample] lies between 0 and
    the size of the padded list, so the call returns; for [N = 0] the
    options of every flashcard are the answer candidate of its sentence
    alone. *)
Theorem sampling_never_raises (nlp : string -> Doc)
  (synsets : string -> list Synset) (order : SetOrder) (R : RandomSource)
  (text : string) (N : Z) (g : rng R) :
  (0 <= N)%Z ->
  (forall a pool,
      let final_distractors := pad N (select_loop N a pool []) in
      (0 <= Z.min (len final_distractors) N <= len final_distractors)%Z)
  /\ exists cards g',
       generate_mcq_flashcards nlp synsets order R text N g = Ok (cards, g')
       /\ (N = 0%Z ->
           Forall (fun c => exists sent cand,
                       In sent (doc_sents (nlp text))
                       /\ pick_answer sent = Some cand
                       /\ options c = [cand]
                       /\ answer c = PyStr.strip cand) cards).
Proof.
  intros HN. split.
  - intros a pool final_distractors. unfold len. lia.
  - destruct (generate_ok nlp synsets order R text N g HN)
      as (cards & g' & E & _ & Hall).
    exists cards, g'. split; [exact E|]. intros ->.
    eapply Forall_impl; [|exact Hall].
    intros c (sent & Hin & _ & Hq & cand & Hp & Ho).
    exists sent, cand. split; [exact Hin|]. split; [exact Hp|].
    split; [exact (options_of_zero synsets order R _ _ _ Ho)|].
    exact (qa_answer sent cand (qa c) Hq Hp).
Qed.

Lemma sampling_never_raises_witness :
  (0 <= 0)%Z
  /\ (forall a pool,
         let final_distractors := pad 0 (select_loop 0 a pool []) in
         (0 <= Z.min (len final_distractors) 0 <= len final_distractors)%Z)
  /\ exists cards g',
       generate_mcq_flashcards (stub_nlp paris_doc) no_synsets insertion_order
         tape_random paris_text 0 [4; 1; 3] = Ok (cards, g')
       /\ (0%Z = 0%Z ->
           Forall (fun c => exists sent cand,
                       In sent (doc_sents (stub_nlp paris_doc paris_text))
                       /\ pick_answer sent = Some cand
                       /\ options c = [cand]
                       /\ answer c = PyStr.strip cand) cards).
Proof. split; [lia | apply sampling_never_raises; lia]. Defined.

(** ** The answer among the options *)

Lemma count_ci_perm (x : string) (l l' : list string) :
  Permutation l l' -> count_ci x l = count_ci x l'.
Proof.
  unfold count_ci. induction 1; simpl; auto.
  - destruct (PyStr.lower x0 =? PyStr.lower x); simpl; auto.
  - destruct (PyStr.lower x0 =? PyStr.lower x),
             (PyStr.lower y =? PyStr.lower x); reflexivity.
  - congruence.
Qed.

Lemma list_of_set_nil (order : SetOrder) : list_of_set order [] = [].
Proof.
  destruct (list_of_set order []) as [|x l] eqn:E; auto.
  assert (In x (list_of_set order [])) as H by (rewrite E; now left).
  now apply list_of_set_In in H.
Qed.

Lemma get_synonyms_none (order : SetOrder) (w : string) :
  get_synonyms no_synsets order w = [].
Proof. apply list_of_set_nil. Qed.

(** The options made for "option 2" in [option_doc] without synonyms:
    the noun "option" and the placeholders "Option 2" and "Option 3". *)
Lemma option_doc_options (order : SetOrder) (R : RandomSource)
  (opts : list string) :
  options_of no_synsets order R option_doc 3 "option 2" opts ->
  Permutation ["option 2"; "option"; "Option 2"; "Option 3"] opts.
Proof.
  intros (w & pool & g & g1 & p & Hw & Hpool & Hp & Ho).
  injection Hw as <-.
  unfold distractor_pool in Hpool. rewrite get_synonyms_none in Hpool.
  change (fallback_candidates option_doc "option 2") with ["option"] in Hpool.
  cbn [len List.length Z.of_nat Z.ltb Z.compare] in Hpool.
  unfold bind, lift, ret in Hpool.
  pose proof (shuffle_perm R ["option"] g) as Hs.
  destruct (shuffle R ["option"] g) as [temp g2]. cbn [fst] in Hs.
  apply Permutation_length_1_inv in Hs. subst temp.
  injection Hpool as <- _.
  change (pad 3 (select_loop 3 "option 2" (extend_pool 3 ["option"] []) []))
    with ["option"; "Option 2"; "Option 3"] in Hp.
  rewrite <- Ho. apply perm_skip.
  rewrite firstn_all2 by (rewrite <- (Permutation_length Hp); simpl; lia).
  exact Hp.
Qed.

(** C1, at the text "Choose option 2 now." with the noun chunk "option 2",
    no synonyms and three distractors: whatever the random source does,
    the call returns one flashcard whose answer "option 2" is met twice
    among its options up to case, once as the answer and once as the
    placeholder "Option 2". *)
Theorem placeholder_repeats_answer (order : SetOrder) (R : RandomSource)
  (g : rng R) :
  exists opts g',
    generate_mcq_flashcards (stub_nlp option_doc) no_synsets order R
      "Choose option 2 now." 3 g
    = Ok ([ {| card_type := "mcq"; question := "Choose ______ now.";
               answer := "option 2"; options := opts |} ], g')
    /\ Permutation ["option 2"; "option"; "Option 2"; "Option 3"] opts
    /\ count_ci "option 2" opts = 2
    /\ ~ NoDup (map PyStr.lower opts).
Proof.
  destruct (generate_ok (stub_nlp option_doc) no_synsets order R
              "Choose option 2 now." 3 g ltac:(lia))
    as (cards & g' & E & Hqa & Hall).
  change (qa_pairs (doc_sents (stub_nlp option_doc "Choose option 2 now.")))
    with [("Choose ______ now.", "option 2")] in Hqa.
  destruct cards as [|c [|c' cards]]; try discriminate.
  injection Hqa as Hq Ha. apply Forall_inv in Hall.
  destruct Hall as (sent & [<-|[]] & Ht & _ & cand & [= <-] & Ho).
  apply option_doc_options in Ho.
  destruct c as [t q a opts]. cbn in Hq, Ha, Ht, Ho. subst t q a.
  exists opts, g'. split; [exact E|]. split; [exact Ho|]. split.
  - now rewrite <- (count_ci_perm _ _ _ Ho).
  - intros Hn. apply (Permutation_map PyStr.lower) in Ho.
    apply Permutation_sym in Ho. apply (Permutation_NoDup Ho) in Hn.
    apply NoDup_cons_iff in Hn as [Hn _]. apply Hn. cbn. auto.
Qed.

(** ** The answer picker *)

Lemma mem_In (x : string) (l : list string) : PyStr.mem x l = true <-> In x l.
Proof.
  unfold PyStr.mem. rewrite existsb_exists. split.
  - intros (y & Hy & E). apply String.eqb_eq in E. now subst.
  - intros H. exists x. split; [exact H | apply String.eqb_refl].
Qed.

Lemma chunk_ok_qualifies (c : NounChunk) : chunk_ok c = true <-> qualifies c.
Proof.
  unfold chunk_ok, qualifies.
  rewrite !andb_true_iff, !Nat.ltb_lt, String.eqb_eq. tauto.
Qed.

Lemma entity_loop_first (pre post : list Entity) (e : Entity) (ac : option string) :
  Forall (fun e' => ~ accepted e') pre -> accepted e ->
  entity_loop (pre ++ e :: post) ac = Some (ent_text e).
Proof.
  intros Hpre He. induction Hpre as [|e' pre Hn _ IH]; cbn [app entity_loop].
  - apply mem_In in He. now rewrite He.
  - destruct (PyStr.mem (ent_label e') accepted_labels) eqn:E; auto.
    apply mem_In in E. contradiction.
Qed.

Lemma entity_loop_none (ents : list Entity) (ac : option string) :
  Forall (fun e => ~ accepted e) ents -> entity_loop ents ac = ac.
Proof.
  induction 1 as [|e ents Hn _ IH]; cbn [entity_loop]; auto.
  destruct (PyStr.mem (ent_label e) accepted_labels) eqn:E; auto.
  apply mem_In in E. contradiction.
Qed.

Lemma chunk_loop_first (pre post : list NounChunk) (c : NounChunk)
  (ac : option string) :
  Forall (fun c' => ~ qualifies c') pre -> qualifies c ->
  chunk_loop (pre ++ c :: post) ac = Some (chunk_text c).
Proof.
  intros Hpre Hc. induction Hpre as [|c' pre Hn _ IH]; cbn [app chunk_loop].
  - apply chunk_ok_qualifies in Hc. now rewrite Hc.
  - destruct (chunk_ok c') eqn:E; auto.
    apply chunk_ok_qualifies in E. contradiction.
Qed.

Lemma chunk_loop_none (chunks : list NounChunk) (ac : option string) :
  Forall (fun c => ~ qualifies c) chunks -> chunk_loop chunks ac = ac.
Proof.
  induction 1 as [|c chunks Hn _ IH]; cbn [chunk_loop]; auto.
  destruct (chunk_ok c) eqn:E; auto.
  apply chunk_ok_qualifies in E. contradiction.
Qed.

Lemma pick_answer_short (sent : Sentence) :
  (find_candidate sent = None
   \/ exists a, find_candidate sent = Some a /\ String.length (PyStr.strip a) < 3) ->
  pick_answer sent = None.
Proof.
  unfold pick_answer. intros [->|(a & -> & Hlt)]; [reflexivity|].
  destruct (falsy (Some a)); [reflexivity|].
  apply Nat.ltb_lt in Hlt. rewrite Hlt. now rewrite orb_true_r.
Qed.

Lemma pick_answer_long (sent : Sentence) (a : string) :
  find_candidate sent = Some a -> 3 <= String.length (PyStr.strip a) ->
  pick_answer sent = Some a.
Proof.
  unfold pick_answer. intros -> Hle.
  assert (PyStr.strip a <> "") as Hs by (intros E; rewrite E in Hle; simpl in Hle; lia).
  pose proof (strip_nonempty a Hs) as Ha.
  apply falsy_false in Hs, Ha. rewrite Ha, Hs.
  apply Nat.ltb_ge in Hle. now rewrite Hle.
Qed.

(** C5: on a sentence whose entity spans have a text, the candidate is the
    text of the first entity, in the order of [sent.ents], whose label is
    accepted; without such an entity it is the text of the first noun
    chunk with more than one word, more than five characters and a root
    tagged NOUN; without such a chunk there is none.  A candidate whose
    trimmed text has at least three characters is the answer; without
    candidate, or with a shorter one, the sentence gives no flashcard. *)
Theorem answer_picker (sent : Sentence) :
  Forall (fun e => ent_text e <> "") (sent_ents sent) ->
  (forall pre e post,
      sent_ents sent = (pre ++ e :: post)%list ->
      Forall (fun e' => ~ accepted e') pre -> accepted e ->
      find_candidate sent = Some (ent_text e))
  /\ (Forall (fun e => ~ accepted e) (sent_ents sent) ->
      forall pre c post,
        sent_noun_chunks sent = (pre ++ c :: post)%list ->
        Forall (fun c' => ~ qualifies c') pre -> qualifies c ->
        find_candidate sent = Some (chunk_text c))
  /\ (Forall (fun e => ~ accepted e) (sent_ents sent) ->
      Forall (fun c => ~ qualifies c) (sent_noun_chunks sent) ->
      find_candidate sent = None)
  /\ (forall a, find_candidate sent = Some a ->
                3 <= String.length (PyStr.strip a) -> pick_answer sent = Some a)
  /\ (find_candidate sent = None
      \/ (exists a, find_candidate sent = Some a
                    /\ String.length (PyStr.strip a) < 3) ->
      pick_answer sent = None
      /\ forall synsets order R doc N g,
           process_sentence synsets order R doc N sent g = Ok (None, g)).
Proof.
  intros Hwf. unfold find_candidate. repeat split.
  - intros pre e post E Hpre He. rewrite E, entity_loop_first by assumption.
    rewrite E in Hwf. apply Forall_elt in Hwf.
    apply falsy_false in Hwf. now rewrite Hwf.
  - intros Hents pre c post E Hpre Hc.
    rewrite entity_loop_none by assumption. simpl.
    rewrite E. now apply chunk_loop_first.
  - intros Hents Hchunks. rewrite entity_loop_none by assumption. simpl.
    now apply chunk_loop_none.
  - apply pick_answer_long.
  - now apply pick_answer_short.
  - intros synsets order R doc N g. apply process_sentence_none.
    apply rejected_iff. right. left. now apply pick_answer_short.
Qed.

Lemma answer_picker_witness :
  Forall (fun e => ent_text e <> "") (sent_ents capital_sentence)
  /\ find_candidate capital_sentence = Some "Paris"
  /\ pick_answer capital_sentence = Some "Paris".
Proof.
  assert (Forall (fun e => ent_text e <> "") (sent_ents capital_sentence)) as Hwf
    by (constructor; [discriminate | constructor]).
  destruct (answer_picker capital_sentence Hwf) as (Hent & _ & _ & Hpick & _).
  assert (find_candidate capital_sentence = Some "Paris") as Hc.
  { apply (Hent [] {| ent_text := "Paris"; ent_label := "GPE" |} []).
    - reflexivity.
    - constructor.
    - unfold accepted. simpl. auto. }
  split; [exact Hwf|]. split; [exact Hc|].
  apply Hpick; [exact Hc | simpl; lia].
Defined.

(** ** The question masker *)

Lemma blank_stripped : PyStr.is_stripped blank.
Proof. split; reflexivity. Qed.

(** The question is the trimmed sentence with the first occurrence of the
    answer replaced by the blank, or the trimmed sentence itself when the
    answer does not occur in it. *)
Lemma replace_cases (sentence a : string) :
  a <> "" ->
  (PyStr.contains a sentence = false
   /\ PyStr.replace a blank 1 sentence = sentence)
  \/ (exists pre post,
         PyStr.first_occurrence a sentence pre post
         /\ PyStr.replace a blank 1 sentence = pre ++ blank ++ post).
Proof.
  intros Ha. destruct (PyStr.contains a sentence) eqn:E.
  - right. destruct (PyStrFacts.contains_first _ _ E) as (pre & post & H).
    exists pre, post. split; [exact H|]. now apply PyStrFacts.replace_first.
  - left. split; [reflexivity|]. now apply PyStrFacts.replace_absent.
Qed.

(** Trimming the question changes nothing. *)
Lemma question_stripped (text a : string) :
  a <> "" ->
  PyStr.strip (PyStr.replace a blank 1 (PyStr.strip text))
  = PyStr.replace a blank 1 (PyStr.strip text).
Proof.
  intros Ha. apply PyStrFacts.strip_id.
  pose proof (PyStrFacts.strip_is_stripped text) as Hs.
  destruct (replace_cases (PyStr.strip text) a Ha) as [[_ ->]|(pre & post & [E _] & ->)];
    [exact Hs|].
  rewrite E in Hs.
  apply (PyStrFacts.stripped_splice pre a blank post Hs blank_stripped).
  discriminate.
Qed.

Lemma mask_question_none (sentence a : string) :
  mask_question sentence a = None
  <-> PyStr.contains blank (PyStr.replace a blank 1 sentence) = false
      /\ PyStr.contains (PyStr.lower a)
           (PyStr.lower (PyStr.replace a blank 1 sentence)) = true.
Proof.
  unfold mask_question.
  destruct (PyStr.contains (PyStr.lower a) _), (PyStr.contains blank _);
    simpl; split; intros H; try discriminate; try tauto;
    destruct H; discriminate.
Qed.

Lemma mask_question_some (sentence a q : string) :
  mask_question sentence a = Some q -> q = PyStr.replace a blank 1 sentence.
Proof.
  unfold mask_question.
  destruct (_ && _); [discriminate | now intros [= <-]].
Qed.

(** C4: for a non-empty sentence with answer [a], the question is the
    trimmed sentence text in which the first occurrence of [a], compared
    character by character, is replaced by the blank (nothing is replaced
    when [a] does not occur); the sentence gives no flashcard exactly when
    the result holds no blank and its lower-case form still holds the
    lower-case answer, and otherwise the flashcard carries that question. *)
Theorem question_masker (sent : Sentence) (a : string) :
  PyStr.strip (sent_text sent) <> "" ->
  pick_answer sent = Some a ->
  let sentence := PyStr.strip (sent_text sent) in
  let q := PyStr.replace a blank 1 sentence in
  let turned_down :=
    PyStr.contains blank q = false
    /\ PyStr.contains (PyStr.lower a) (PyStr.lower q) = true in
  ((PyStr.contains a sentence = false /\ q = sentence)
   \/ (exists pre post,
          PyStr.first_occurrence a sentence pre post
          /\ q = pre ++ blank ++ post))
  /\ forall synsets order R doc N g,
       (process_sentence synsets order R doc N sent g = Ok (None, g)
        <-> turned_down)
       /\ ((0 <= N)%Z -> ~ turned_down ->
           exists opts g',
             process_sentence synsets order R doc N sent g
             = Ok (Some {| card_type := "mcq"; question := q;
                           answer := PyStr.strip a; options := opts |}, g')).
Proof.
  intros Hs Hp sentence q turned_down.
  destruct (pick_answer_strip _ _ Hp) as [Hsa _].
  pose proof (strip_nonempty a Hsa) as Ha.
  split; [now apply replace_cases|].
  intros synsets order R doc N g.
  assert (~ turned_down ->
          mask_question sentence a = Some q) as Hsome.
  { intros Hn. destruct (mask_question sentence a) as [q'|] eqn:E.
    - now rewrite (mask_question_some _ _ _ E).
    - apply mask_question_none in E. contradiction. }
  unfold process_sentence. fold sentence.
  apply falsy_false in Hs. fold sentence in Hs. rewrite Hs, Hp. split.
  - split.
    + destruct (mask_question sentence a) as [q'|] eqn:E.
      * intros H. exfalso. unfold bind in H.
        destruct (Z_lt_le_dec N 0) as [HN|HN].
        -- now rewrite (make_options_raise synsets order R doc N a g Hsa HN) in H.
        -- destruct (make_options_ok synsets order R doc N a g Hsa HN)
             as (opts & g' & Ho & _).
           rewrite Ho in H. discriminate.
      * intros _. now apply mask_question_none.
    + intros H. apply mask_question_none in H. fold sentence in H.
      now rewrite H.
  - intros HN Hn. rewrite (Hsome Hn). unfold bind, ret.
    destruct (make_options_ok synsets order R doc N a g Hsa HN)
      as (opts & g' & -> & _).
    exists opts, g'. unfold q, sentence. now rewrite question_stripped.
Qed.

Lemma question_masker_witness :
  PyStr.strip (sent_text capital_sentence) <> ""
  /\ pick_answer capital_sentence = Some "Paris"
  /\ exists opts g',
       process_sentence no_synsets insertion_order tape_random paris_doc 3
         capital_sentence [4; 1; 3]
       = Ok (Some {| card_type := "mcq";
                     question := "The capital city of France is ______.";
                     answer := "Paris"; options := opts |}, g').
Proof.
  assert (PyStr.strip (sent_text capital_sentence) <> "") as Hs by discriminate.
  assert (pick_answer capital_sentence = Some "Paris") as Hp by reflexivity.
  split; [exact Hs|]. split; [exact Hp|].
  destruct (question_masker capital_sentence "Paris" Hs Hp) as [_ H].
  destruct (H no_synsets insertion_order tape_random paris_doc 3%Z [4; 1; 3])
    as [_ Hcard].
  apply Hcard; [lia|].
  intros [Hb _]. discriminate Hb.
Defined.

(** ** The blank in the question *)

Lemma contains_underscore_cons (c : ascii) (t : string) :
  PyStr.contains "_" (String c t) = (("_" =? c)%char || PyStr.contains "_" t).
Proof. cbn [PyStr.contains PyStr.startswith]. now rewrite andb_true_r. Qed.

Lemma contains_underscore_app (x y : string) :
  PyStr.contains "_" (x ++ y) = false ->
  PyStr.contains "_" x = false /\ PyStr.contains "_" y = false.
Proof.
  induction x as [|c x IH]; [auto|].
  cbn [append]. rewrite !contains_underscore_cons.
  intros H. apply orb_false_iff in H as [Hc H].
  destruct (IH H) as [Hx Hy]. now rewrite Hc, Hx.
Qed.

Lemma startswith_blank_cons (c : ascii) (t : string) :
  ("_" =? c)%char = false -> PyStr.startswith blank (String c t) = false.
Proof. intros H. unfold blank. cbn [PyStr.startswith]. now rewrite H. Qed.

Lemma occurrences_no_underscore (s : string) :
  PyStr.contains "_" s = false -> PyStr.occurrences blank s = 0.
Proof.
  induction s as [|c s IH]; [reflexivity|].
  rewrite contains_underscore_cons. intros H.
  apply orb_false_iff in H as [Hc H].
  cbn [PyStr.occurrences]. now rewrite startswith_blank_cons, IH.
Qed.

(** A blank between two parts without underscore is the only one. *)
Lemma occurrences_blank_once (pre post : string) :
  PyStr.contains "_" pre = false -> PyStr.contains "_" post = false ->
  PyStr.occurrences blank (pre ++ blank ++ post) = 1.
Proof.
  intros Hpre Hpost. induction pre as [|c pre IH].
  - destruct post as [|c post]; [reflexivity|].
    pose proof (occurrences_no_underscore _ Hpost) as H0.
    rewrite contains_underscore_cons in Hpost.
    apply orb_false_iff in Hpost as [Hc _].
    unfold blank in *. cbn [append PyStr.occurrences PyStr.startswith] in *.
    rewrite Hc in *. cbn in *. now rewrite H0.
  - rewrite contains_underscore_cons in Hpre.
    apply orb_false_iff in Hpre as [Hc Hpre].
    cbn [append PyStr.occurrences]. now rewrite startswith_blank_cons, IH.
Qed.

Lemma card_of_made_from (synsets : string -> list Synset) (order : SetOrder)
  (R : RandomSource) (doc : Doc) (N : Z) (sent : Sentence) (c : Flashcard) :
  card_of synsets order R doc N sent c -> exists cand, made_from sent cand c.
Proof.
  intros (_ & Hq & cand & Hp & _). exists cand. unfold made_from.
  unfold qa_of_sentence in Hq. rewrite Hp in Hq.
  destruct (falsy (Some (PyStr.strip (sent_text sent)))); [discriminate|].
  destruct (mask_question (PyStr.strip (sent_text sent)) cand) as [q|] eqn:E;
    [|discriminate].
  injection Hq as Hq Ha.
  destruct (pick_answer_strip _ _ Hp) as [Hs _].
  rewrite (mask_question_some _ _ _ E) in Hq |- *.
  rewrite question_stripped in Hq by now apply strip_nonempty.
  repeat split; congruence.
Qed.

(** C3, at a sentence that holds a blank and names its entity twice: the
    question of the flashcard holds two blanks and still holds the answer. *)
Lemma two_blanks_and_answer_left :
  exists c g',
    generate_mcq_flashcards (stub_nlp blank_doc) no_synsets insertion_order
      tape_random blank_text 3 [4; 1; 3] = Ok ([c], g')
    /\ question c = "The blank ______ stands for ______, and Paris is in France."
    /\ answer c = "Paris"
    /\ PyStr.occurrences blank (question c) = 2
    /\ PyStr.contains (answer c) (question c) = true.
Proof. vm_compute. eexists _, _. repeat split. Qed.

(** C3 as amended: for a non-negative number of distractors the call
    returns, and every flashcard it returns carries the masked question of
    a sentence of the document; when the trimmed text of that sentence
    holds the answer candidate and no underscore, the question holds the
    blank exactly once, in the place of the first occurrence of the
    candidate. *)
Theorem blank_once (nlp : string -> Doc) (synsets : string -> list Synset)
  (order : SetOrder) (R : RandomSource) (text : string) (N : Z) (g : rng R) :
  (0 <= N)%Z ->
  exists cards g',
    generate_mcq_flashcards nlp synsets order R text N g = Ok (cards, g')
    /\ Forall
         (fun c =>
            exists sent cand,
              In sent (doc_sents (nlp text)) /\ made_from sent cand c
              /\ (PyStr.contains cand (PyStr.strip (sent_text sent)) = true ->
                  PyStr.contains "_" (PyStr.strip (sent_text sent)) = false ->
                  PyStr.occurrences blank (question c) = 1
                  /\ exists pre post,
                       PyStr.first_occurrence cand
                         (PyStr.strip (sent_text sent)) pre post
                       /\ question c = pre ++ blank ++ post))
         cards.
Proof.
  intros HN.
  destruct (generate_ok nlp synsets order R text N g HN)
    as (cards & g' & E & _ & Hall).
  exists cards, g'. split; [exact E|].
  eapply Forall_impl; [|exact Hall]. intros c (sent & Hin & Hc).
  destruct (card_of_made_from _ _ _ _ _ _ _ Hc) as (cand & Hm).
  exists sent, cand. split; [exact Hin|]. split; [exact Hm|].
  intros Hcand Hund. destruct Hm as (Hp & Hq & _).
  apply mask_question_some in Hq.
  destruct (pick_answer_strip _ _ Hp) as [Hs _].
  destruct (replace_cases (PyStr.strip (sent_text sent)) cand
              (strip_nonempty _ Hs)) as [[Hno _]|(pre & post & Hfirst & Hr)];
    [congruence|].
  rewrite Hq, Hr. split; [|now exists pre, post].
  destruct Hfirst as [Epp _]. rewrite Epp in Hund.
  apply contains_underscore_app in Hund as [Hpre Hund].
  apply contains_underscore_app in Hund as [_ Hpost].
  now apply occurrences_blank_once.
Qed.

Lemma blank_once_witness :
  (0 <= 3)%Z
  /\ exists cards g',
       generate_mcq_flashcards (stub_nlp paris_doc) no_synsets insertion_order
         tape_random paris_text 3 [4; 1; 3] = Ok (cards, g')
       /\ Forall
            (fun c =>
               exists sent cand,
                 In sent (doc_sents (stub_nlp paris_doc paris_text))
                 /\ made_from sent cand c
                 /\ (PyStr.contains cand (PyStr.strip (sent_text sent)) = true ->
                     PyStr.contains "_" (PyStr.strip (sent_text sent)) = false ->
                     PyStr.occurrences blank (question c) = 1
                     /\ exists pre post,
                          PyStr.first_occurrence cand
                            (PyStr.strip (sent_text sent)) pre post
                          /\ question c = pre ++ blank ++ post))
            cards.
Proof. split; [lia | apply blank_once; lia]. Defined.

(** ** The fallback pool *)

Lemma filter_map_swap {A B : Type} (f : B -> bool) (h : A -> B) (l : list A) :
  filter f (map h l) = map h (filter (fun x => f (h x)) l).
Proof.
  induction l as [|x l IH]; simpl; auto.
  destruct (f (h x)); simpl; congruence.
Qed.

Lemma filter_andb {A : Type} (f h : A -> bool) (l : list A) :
  filter (fun x => f x && h x) l = filter f (filter h l).
Proof.
  induction l as [|x l IH]; simpl; auto.
  destruct (h x); simpl; destruct (f x); simpl; congruence.
Qed.

Lemma fallback_candidates_filter (doc : Doc) (a : string) :
  fallback_candidates doc a
  = filter (fun x => negb (PyStr.lower x =? PyStr.lower a)) (document_pool doc).
Proof.
  unfold fallback_candidates, document_pool.
  rewrite filter_app, !filter_map_swap, <- !filter_andb.
  f_equal. f_equal. apply filter_ext. intros t.
  destruct (tok_pos t =? "NOUN"), (PyStr.lower (tok_text t) =? PyStr.lower a);
    reflexivity.
Qed.

Lemma document_pool_In (doc : Doc) (x : string) :
  In x (document_pool doc)
  <-> (exists e, In e (doc_ents doc) /\ ent_text e = x
                 /\ List.length (PyStr.split x) < 4)
      \/ (exists t, In t (doc_tokens doc) /\ tok_text t = x
                    /\ tok_pos t = "NOUN" /\ 2 < String.length x).
Proof.
  unfold document_pool. rewrite in_app_iff, !in_map_iff.
  split; intros [H|H]; [left | right | left | right].
  - destruct H as (e & <- & He). apply filter_In in He as [He Hl].
    apply Nat.ltb_lt in Hl. eauto.
  - destruct H as (t & <- & Ht). apply filter_In in Ht as [Ht Hc].
    apply andb_true_iff in Hc as [Hp Hl].
    apply String.eqb_eq in Hp. apply Nat.ltb_lt in Hl. eauto.
  - destruct H as (e & He & <- & Hl). exists e. split; [reflexivity|].
    apply filter_In. split; [exact He | now apply Nat.ltb_lt].
  - destruct H as (t & Ht & <- & Hp & Hl). exists t. split; [reflexivity|].
    apply filter_In. split; [exact Ht|].
    apply andb_true_iff. split; [now apply String.eqb_eq | now apply Nat.ltb_lt].
Qed.

(** C6, at the two answers of [paris_doc]: each answer is left out of its
    own pool and kept in the pool of the other. *)
Lemma fallback_pool_varies_with_answer :
  fallback_candidates paris_doc "Paris" = ["Eiffel Tower"; "capital"; "city"]
  /\ fallback_candidates paris_doc "Eiffel Tower" = ["Paris"; "capital"; "city"]
  /\ fallback_candidates paris_doc "Paris"
     <> fallback_candidates paris_doc "Eiffel Tower".
Proof. repeat split. discriminate. Qed.

(** C6 as amended: the fallback candidates of an answer are the entities
    (of fewer than four words) and nouns (of more than two characters) of
    the whole document, without those equal to the answer up to case; they
    depend on the sentence at hand through its answer only, and they are
    what is shuffled into the pool of a sentence short of synonyms. *)
Theorem fallback_pool_by_answer (doc : Doc) :
  exists pool,
    (forall x,
        In x pool
        <-> (exists e, In e (doc_ents doc) /\ ent_text e = x
                       /\ List.length (PyStr.split x) < 4)
            \/ (exists t, In t (doc_tokens doc) /\ tok_text t = x
                          /\ tok_pos t = "NOUN" /\ 2 < String.length x))
    /\ (forall a,
           fallback_candidates doc a
           = filter (fun x => negb (PyStr.lower x =? PyStr.lower a)) pool)
    /\ (forall a1 a2,
           PyStr.lower a1 = PyStr.lower a2 ->
           fallback_candidates doc a1 = fallback_candidates doc a2)
    /\ (forall synsets order R N a w g,
           (len (get_synonyms synsets order w) < N)%Z ->
           exists temp g',
             Permutation (fallback_candidates doc a) temp
             /\ distractor_pool synsets order R doc N a w g
                = Ok (extend_pool N temp (get_synonyms synsets order w), g')).
Proof.
  exists (document_pool doc). split; [apply document_pool_In|].
  split; [apply fallback_candidates_filter|]. split.
  - intros a1 a2 E. rewrite !fallback_candidates_filter. now rewrite E.
  - intros synsets order R N a w g Hlt. unfold distractor_pool.
    apply Z.ltb_lt in Hlt. rewrite Hlt. unfold bind, lift, ret.
    pose proof (shuffle_perm R (fallback_candidates doc a) g) as Hs.
    destruct (shuffle R (fallback_candidates doc a) g) as [temp g'].
    exists temp, g'. split; [exact Hs | reflexivity].
Qed.

(** ** The synonym lookup *)

Lemma get_synonyms_In (synsets : string -> list Synset) (order : SetOrder)
  (w x : string) :
  In x (get_synonyms synsets order w)
  <-> (exists syn name, In syn (synsets w) /\ In name syn
                        /\ x = PyStr.replace "_" " " (-1) name)
      /\ PyStr.lower x <> PyStr.lower w.
Proof.
  unfold get_synonyms. rewrite list_of_set_In, in_flat_map. split.
  - intros (syn & Hsyn & H). apply in_flat_map in H as (name & Hname & H).
    destruct (PyStr.lower (PyStr.replace "_" " " (-1) name) =? PyStr.lower w)
      eqn:E; simpl in H; [contradiction|].
    destruct H as [<-|[]]. apply String.eqb_neq in E. eauto 6.
  - intros ((syn & name & Hsyn & Hname & ->) & Hne).
    exists syn. split; [exact Hsyn|]. apply in_flat_map.
    exists name. split; [exact Hname|].
    apply String.eqb_neq in Hne. rewrite Hne. now left.
Qed.

Lemma select_loop_not_answer (N : Z) (a : string) (pool : list string)
  (x : string) :
  In x (select_loop N a pool []) -> PyStr.lower x <> PyStr.lower a.
Proof.
  intros Hx E.
  destruct (select_loop_sound N a pool []) as [Hn _];
    [intros [] | constructor |].
  apply Hn. rewrite <- E. now apply in_map.
Qed.

(** C7, at the answer "hot dog": the key is "dog", and the synonyms of
    "dog" hold "hot dog" itself; at an answer of two words separated by a
    tabulation the key is the whole answer. *)
Lemma synonym_pool_keeps_answer :
  target_word "hot dog" = Ok "dog"
  /\ In "hot dog" (get_synonyms dog_synsets insertion_order "dog")
  /\ PyStr.split tabbed_answer = ["New"; "York"]
  /\ target_word tabbed_answer = Ok tabbed_answer.
Proof. vm_compute. intuition. Qed.

(** C7 as amended: the lookup key is the last word of the answer when the
    answer holds a space character and the whole answer otherwise; the
    synonyms are the lemma names of the synsets of the key, underscores
    turned into spaces, that differ from the key up to case; the answer
    itself is not taken out of them, it is left out when the distractors
    are selected. *)
Theorem synonym_lookup (synsets : string -> list Synset) (order : SetOrder)
  (a : string) :
  PyStr.strip a <> "" ->
  (PyStr.contains " " a = true ->
   exists words w, PyStr.split a = (words ++ [w])%list /\ target_word a = Ok w)
  /\ (PyStr.contains " " a = false -> target_word a = Ok a)
  /\ (forall w x,
         In x (get_synonyms synsets order w)
         <-> (exists syn name, In syn (synsets w) /\ In name syn
                               /\ x = PyStr.replace "_" " " (-1) name)
             /\ PyStr.lower x <> PyStr.lower w)
  /\ (forall N pool x,
         In x (select_loop N a pool []) -> PyStr.lower x <> PyStr.lower a).
Proof.
  intros Ha. unfold target_word. split; [|split; [|split]].
  - intros ->. destruct (rev (PyStr.split a)) as [|w ws] eqn:E.
    + apply (f_equal (@rev string)) in E. rewrite rev_involutive in E.
      now apply PyStrFacts.split_nonempty in Ha.
    + exists (rev ws), w. split; [|reflexivity].
      apply (f_equal (@rev string)) in E. now rewrite rev_involutive in E.
  - now intros ->.
  - intros w x. apply get_synonyms_In.
  - intros N pool x. apply select_loop_not_answer.
Qed.

Lemma synonym_lookup_witness :
  PyStr.strip "hot dog" <> ""
  /\ (exists words w, PyStr.split "hot dog" = (words ++ [w])%list
                      /\ target_word "hot dog" = Ok w)
  /\ forall x, In x (get_synonyms dog_synsets insertion_order "dog") ->
               PyStr.lower x <> "dog".
Proof.
  assert (PyStr.strip "hot dog" <> "") as Ha by discriminate.
  destruct (synonym_lookup dog_synsets insertion_order "hot dog" Ha)
    as (Hkey & _ & Hsyn & _).
  split; [exact Ha|]. split; [now apply Hkey|].
  intros x Hx. now apply Hsyn in Hx.
Defined.

(** * Further properties of the generator and of the endpoint *)

(** ** The synonyms *)

Lemma replace_underscores_scan (count : nat) (s : string) :
  String.length s < count ->
  PyStr.contains "_" (PyStr.replace_scan "_" " " count 0 s) = false.
Proof.
  revert count; induction s as [|c s IH]; intros count Hlt; [reflexivity|].
  destruct count as [|n]; [simpl in Hlt; lia|].
  simpl in Hlt. cbn [PyStr.replace_scan PyStr.startswith].
  rewrite andb_true_r. destruct ("_" =? c)%char eqn:Ec.
  - cbn [String.length Nat.sub append]. rewrite contains_underscore_cons.
    cbn. apply IH. lia.
  - rewrite contains_underscore_cons, Ec. cbn. apply IH. lia.
Qed.

Lemma replace_underscores (s : string) :
  PyStr.contains "_" (PyStr.replace "_" " " (-1) s) = false.
Proof.
  change (PyStr.replace "_" " " (-1) s)
    with (PyStr.replace_scan "_" " " (S (String.length s)) 0 s).
  apply replace_underscores_scan. lia.
Qed.

(** X1: the synonyms returned for a word are pairwise distinct, hold no
    underscore, and there is none when WordNet has no synset for the
    word. *)
Theorem synonyms_distinct_and_spaced (synsets : string -> list Synset)
  (order : SetOrder) (word : string) :
  NoDup (get_synonyms synsets order word)
  /\ (forall x, In x (get_synonyms synsets order word) ->
                PyStr.contains "_" x = false)
  /\ (synsets word = [] -> get_synonyms synsets order word = []).
Proof.
  split; [apply list_of_set_NoDup|]. split.
  - intros x Hx. apply get_synonyms_In in Hx as [(syn & name & _ & _ & ->) _].
    apply replace_underscores.
  - intros E. unfold get_synonyms. rewrite E. apply list_of_set_nil.
Qed.

(** ** The pool, the selection and the padding *)

Lemma extend_pool_spec (N : Z) (temp possible : list string) :
  exists added,
    extend_pool N temp possible = (possible ++ added)%list
    /\ incl added temp
    /\ (NoDup possible -> NoDup (possible ++ added)%list)
    /\ ((len possible < N * 2)%Z -> (len (possible ++ added)%list <= N * 2)%Z).
Proof.
  revert possible; induction temp as [|d rest IH]; intros possible.
  - exists []. rewrite app_nil_r. repeat split; auto; try lia. intros x [].
  - cbn [extend_pool]. destruct (PyStr.mem d possible) eqn:Em; cbn [negb].
    + destruct (IH possible) as (added & E & Hin & Hnd & Hlen).
      exists added. repeat split; auto. intros x Hx. right. now apply Hin.
    + assert (~ In d possible) as Hd
        by (intros H; apply mem_In in H; congruence).
      assert (NoDup possible -> NoDup (possible ++ [d])%list) as Hnd1.
      { intros Hn. apply NoDup_app; auto.
        - repeat constructor. intros [].
        - intros x Hx [<-|[]]. contradiction. }
      destruct (N * 2 <=? len (possible ++ [d])%list)%Z eqn:Ecap.
      * exists [d]. repeat split; auto.
        -- intros x [<-|[]]. now left.
        -- rewrite len_app. lia.
      * destruct (IH (possible ++ [d])%list) as (added & E & Hin & Hnd & Hlen).
        exists (d :: added). rewrite E, <- app_assoc. cbn [app].
        repeat split.
        -- intros x [<-|Hx]; [now left | right; now apply Hin].
        -- intros Hn. specialize (Hnd (Hnd1 Hn)).
           now rewrite <- app_assoc in Hnd.
        -- intros _. apply Z.leb_gt in Ecap. specialize (Hlen Ecap).
           now rewrite <- app_assoc in Hlen.
Qed.

(** X2: the pool of possible distractors is made without error; it holds
    no string twice; it starts with the synonyms of the key, and what
    follows is taken from the fallback candidates of the document.  With
    at least [N] synonyms it is the synonyms alone and the random source
    is not used; otherwise it holds at most [2 * N] entries. *)
Theorem pool_of_distractors (synsets : string -> list Synset)
  (order : SetOrder) (R : RandomSource) (doc : Doc) (N : Z) (a w : string)
  (g : rng R) :
  exists pool g',
    distractor_pool synsets order R doc N a w g = Ok (pool, g')
    /\ NoDup pool
    /\ (exists added,
           pool = (get_synonyms synsets order w ++ added)%list
           /\ incl added (fallback_candidates doc a))
    /\ ((N <= len (get_synonyms synsets order w))%Z ->
        pool = get_synonyms synsets order w /\ g' = g)
    /\ ((len (get_synonyms synsets order w) < N)%Z -> (len pool <= N * 2)%Z).
Proof.
  unfold distractor_pool.
  pose proof (list_of_set_NoDup order) as Hnd. fold (get_synonyms synsets order w).
  destruct (len (get_synonyms synsets order w) <? N)%Z eqn:E.
  - apply Z.ltb_lt in E. unfold bind, lift, ret.
    pose proof (shuffle_perm R (fallback_candidates doc a) g) as Hs.
    destruct (shuffle R (fallback_candidates doc a) g) as [temp g']. cbn [fst] in Hs.
    destruct (extend_pool_spec N temp (get_synonyms synsets order w))
      as (added & -> & Hin & Hn & Hlen).
    exists (get_synonyms synsets order w ++ added)%list, g'.
    split; [reflexivity|]. split; [apply Hn, list_of_set_NoDup|]. split.
    + exists added. split; [reflexivity|]. intros x Hx.
      apply (Permutation_in x (Permutation_sym Hs)). now apply Hin.
    + split; [lia|]. intros _. apply Hlen. unfold len in *. lia.
  - apply Z.ltb_ge in E. exists (get_synonyms synsets order w), g.
    split; [reflexivity|]. split; [apply list_of_set_NoDup|]. split.
    + exists []. rewrite app_nil_r. split; [reflexivity|]. intros x [].
    + split; [auto | lia].
Qed.

Lemma select_loop_prefix (N : Z) (a : string) (pool final : list string) :
  exists sel,
    select_loop N a pool final = (final ++ sel)%list /\ incl sel pool.
Proof.
  revert final; induction pool as [|d rest IH]; intros final.
  - exists []. rewrite app_nil_r. split; [reflexivity | intros x []].
  - cbn [select_loop].
    destruct (negb (PyStr.lower d =? PyStr.lower a)
              && negb (PyStr.mem (PyStr.lower d) (map PyStr.lower final))).
    + destruct (N <=? len (final ++ [d])%list)%Z.
      * exists [d]. split; [reflexivity|]. intros x [<-|[]]. now left.
      * destruct (IH (final ++ [d])%list) as (sel & -> & Hin).
        exists (d :: sel). rewrite <- app_assoc. split; [reflexivity|].
        intros x [<-|Hx]; [now left | right; now apply Hin].
    + destruct (IH final) as (sel & -> & Hin).
      exists sel. split; [reflexivity|]. intros x Hx. right. now apply Hin.
Qed.

Lemma select_loop_length (N : Z) (a : string) (pool final : list string) :
  (len final < N)%Z -> (len (select_loop N a pool final) <= N)%Z.
Proof.
  revert final; induction pool as [|d rest IH]; intros final Hf;
    cbn [select_loop]; [lia|].
  destruct (negb (PyStr.lower d =? PyStr.lower a)
            && negb (PyStr.mem (PyStr.lower d) (map PyStr.lower final))); auto.
  destruct (N <=? len (final ++ [d])%list)%Z eqn:E.
  - rewrite len_app in *. lia.
  - apply IH. apply Z.leb_gt in E. rewrite len_app in *. lia.
Qed.

(** When the selection ends short of [N], every entry of the pool equals,
    up to case, the answer or a selected distractor. *)
Lemma select_loop_exhausts (N : Z) (a : string) (pool final : list string) :
  (len (select_loop N a pool final) < N)%Z ->
  forall d, In d pool ->
    PyStr.lower d = PyStr.lower a
    \/ In (PyStr.lower d) (map PyStr.lower (select_loop N a pool final)).
Proof.
  revert final; induction pool as [|d0 rest IH]; intros final Hlt d Hd;
    [destruct Hd|].
  cbn [select_loop] in *.
  destruct (PyStr.lower d0 =? PyStr.lower a) eqn:Ea; cbn [negb andb] in *.
  { destruct Hd as [<-|Hd]; [left; now apply String.eqb_eq | now apply IH]. }
  destruct (PyStr.mem (PyStr.lower d0) (map PyStr.lower final)) eqn:Em;
    cbn [negb] in *.
  { destruct Hd as [<-|Hd]; [|now apply IH].
    right. apply mem_In in Em.
    destruct (select_loop_prefix N a rest final) as (sel & -> & _).
    rewrite map_app. apply in_or_app. now left. }
  destruct (N <=? len (final ++ [d0])%list)%Z eqn:Ecap.
  { apply Z.leb_le in Ecap. lia. }
  destruct Hd as [<-|Hd]; [|now apply IH].
  right. destruct (select_loop_prefix N a rest (final ++ [d0])%list)
    as (sel & -> & _).
  rewrite !map_app. apply in_or_app. left. apply in_or_app. right. now left.
Qed.

(** X3: the selected distractors are entries of the pool, differ from
    each other and from the answer up to case, are at most [N] for
    [N >= 1], and fall short of [N] only when every entry of the pool
    equals the answer or a selected distractor up to case. *)
Theorem selected_distractors (N : Z) (a : string) (pool : list string) :
  incl (select_loop N a pool []) pool
  /\ NoDup (map PyStr.lower (select_loop N a pool []))
  /\ ~ In (PyStr.lower a) (map PyStr.lower (select_loop N a pool []))
  /\ ((1 <= N)%Z -> (len (select_loop N a pool []) <= N)%Z)
  /\ ((len (select_loop N a pool []) < N)%Z ->
      forall d, In d pool ->
        PyStr.lower d = PyStr.lower a
        \/ In (PyStr.lower d) (map PyStr.lower (select_loop N a pool []))).
Proof.
  destruct (select_loop_sound N a pool []) as [Ha Hn];
    [intros [] | constructor |].
  split; [|split; [exact Hn|split; [exact Ha|split]]].
  - destruct (select_loop_prefix N a pool []) as (sel & -> & Hin). exact Hin.
  - intros HN. apply select_loop_length. unfold len. simpl. lia.
  - apply select_loop_exhausts.
Qed.

Lemma pad_loop_closed (N : Z) (fuel : nat) (final : list string) :
  fuel = Z.to_nat (N - len final) ->
  pad_loop fuel N final
  = (final ++ map placeholder (seq (List.length final + 1) fuel))%list.
Proof.
  revert final; induction fuel as [|fuel IH]; intros final Hf.
  - cbn. now rewrite app_nil_r.
  - cbn [pad_loop]. assert (len final < N)%Z as Hlt by lia.
    apply Z.ltb_lt in Hlt. rewrite Hlt. apply Z.ltb_lt in Hlt.
    rewrite IH by (rewrite len_app; lia).
    rewrite <- app_assoc, length_app. cbn [List.length app seq map].
    now rewrite (Nat.add_1_r (List.length final + 1)).
Qed.

(** X4: padding leaves the selected distractors in front and appends the
    placeholders numbered from one more than their count up to [N]; with
    [N] distractors or more it appends nothing, and padding twice is
    padding once. *)
Theorem padding_closed_form (N : Z) (final : list string) :
  pad N final
  = (final ++ map placeholder
                (seq (List.length final + 1) (Z.to_nat (N - len final))))%list
  /\ ((N <= len final)%Z -> pad N final = final)
  /\ pad N (pad N final) = pad N final.
Proof.
  assert (forall l, (N <= len l)%Z -> pad N l = l) as Hfull.
  { intros l Hl. unfold pad.
    now replace (Z.to_nat (N - len l)) with 0 by lia. }
  split; [now apply pad_loop_closed|]. split; [apply Hfull|].
  apply Hfull. rewrite pad_length. lia.
Qed.

(** ** The placeholders *)









(** ** The options of a flashcard *)

Section OptionsFacts.

Variable synsets : string -> list Synset.
Variable order : SetOrder.
Variable R : RandomSource.



End OptionsFacts.





(** ** The answer and the question *)

Lemma entity_loop_inv (ents : list Entity) (ac : option string) :
  entity_loop ents ac = ac
  \/ exists e, In e ents /\ accepted e /\ entity_loop ents ac = Some (ent_text e).
Proof.
  induction ents as [|e ents IH]; [now left|]. cbn [entity_loop].
  destruct (PyStr.mem (ent_label e) accepted_labels) eqn:E.
  - right. exists e. split; [now left|]. split; [now apply mem_In | reflexivity].
  - destruct IH as [IH|(e' & Hin & Ha & IH)]; [now left|].
    right. exists e'. split; [now right|]. now split.
Qed.

Lemma chunk_loop_inv (chunks : list NounChunk) (ac : option string) :
  chunk_loop chunks ac = ac
  \/ exists c, In c chunks /\ qualifies c
               /\ chunk_loop chunks ac = Some (chunk_text c).
Proof.
  induction chunks as [|c chunks IH]; [now left|]. cbn [chunk_loop].
  destruct (chunk_ok c) eqn:E.
  - right. exists c. split; [now left|].
    split; [now apply chunk_ok_qualifies | reflexivity].
  - destruct IH as [IH|(c' & Hin & Hq & IH)]; [now left|].
    right. exists c'. split; [now right|]. now split.
Qed.

(** X7: an answer is never made up: it is the text of an entity of the
    sentence with an accepted label, or the text of a noun chunk of the
    sentence that passes the test of line 93, and its trimmed text has at
    least three characters. *)
Theorem answer_from_annotation (sent : Sentence) (a : string) :
  pick_answer sent = Some a ->
  3 <= String.length (PyStr.strip a)
  /\ ((exists e, In e (sent_ents sent) /\ accepted e /\ ent_text e = a)
      \/ (exists c, In c (sent_noun_chunks sent) /\ qualifies c
                    /\ chunk_text c = a)).
Proof.
  intros Hp. split; [now apply pick_answer_strip in Hp|].
  unfold pick_answer in Hp.
  destruct (falsy (find_candidate sent)) eqn:Ef; [discriminate|].
  destruct (find_candidate sent) as [x|] eqn:Ec; [|discriminate].
  destruct (_ || _) in Hp; [discriminate|]. injection Hp as ->.
  unfold find_candidate in Ec.
  destruct (entity_loop_inv (sent_ents sent) None) as [He|(e & Hin & Ha & He)];
    rewrite He in Ec.
  - cbn [falsy] in Ec. destruct (chunk_loop_inv (sent_noun_chunks sent) None)
      as [Hc|(c & Hin & Hq & Hc)]; rewrite Hc in Ec; [discriminate|].
    right. exists c. injection Ec as Ec. auto.
  - destruct (falsy (Some (ent_text e))) eqn:Efe.
    + destruct (chunk_loop_inv (sent_noun_chunks sent) (Some (ent_text e)))
        as [Hc|(c & Hinc & Hq & Hc)]; rewrite Hc in Ec.
      * injection Ec as Ec. left. exists e. auto.
      * right. exists c. injection Ec as Ec. auto.
    + left. exists e. injection Ec as Ec. auto.
Qed.

Lemma answer_from_annotation_witness :
  pick_answer tower_sentence = Some "Eiffel Tower"
  /\ 3 <= String.length (PyStr.strip "Eiffel Tower")
  /\ ((exists e, In e (sent_ents tower_sentence) /\ accepted e
                 /\ ent_text e = "Eiffel Tower")
      \/ (exists c, In c (sent_noun_chunks tower_sentence) /\ qualifies c
                    /\ chunk_text c = "Eiffel Tower")).
Proof.
  split; [reflexivity|]. apply answer_from_annotation. reflexivity.
Defined.

Lemma contains_middle (pre sub post : string) :
  PyStr.contains sub (pre ++ sub ++ post) = true.
Proof.
  induction pre as [|c pre IH].
  - change ("" ++ sub ++ post) with (sub ++ post).
    apply PyStrFacts.startswith_contains, PyStrFacts.startswith_app.
  - cbn [append PyStr.contains]. rewrite IH. apply orb_true_r.
Qed.

(** X8: the masker turns a sentence down exactly when the answer does not
    occur in the trimmed sentence as it is written, the sentence holds no
    blank of its own, and the answer occurs in it in another case; a
    sentence that holds the answer as written is never turned down. *)
Theorem masker_rejection (sentence a : string) :
  mask_question sentence a = None
  <-> PyStr.contains a sentence = false
      /\ PyStr.contains blank sentence = false
      /\ PyStr.contains (PyStr.lower a) (PyStr.lower sentence) = true.
Proof.
  rewrite mask_question_none. destruct a as [|c a].
  - assert (PyStr.contains "" sentence = true) as E1 by now destruct sentence.
    assert (PyStr.contains blank (PyStr.replace "" blank 1 sentence) = true) as E2.
    { change (PyStr.replace "" blank 1 sentence)
        with (blank ++ match sentence with
                       | "" => ""
                       | String c t => String c t
                       end).
      apply PyStrFacts.startswith_contains, PyStrFacts.startswith_app. }
    rewrite E1, E2. split; intros [H _]; discriminate.
  - destruct (replace_cases sentence (String c a) ltac:(discriminate))
      as [[Hno ->]|(pre & post & [E _] & ->)].
    + rewrite Hno. tauto.
    + rewrite (contains_middle pre blank post), E, contains_middle.
      split; intros [H _]; discriminate.
Qed.

(** ** The list of flashcards *)

Lemma qa_pairs_length (sents : list Sentence) :
  List.length (qa_pairs sents) <= List.length sents.
Proof.
  induction sents as [|sent rest IH]; [reflexivity|].
  cbn [qa_pairs flat_map]. destruct (qa_of_sentence sent);
    cbn [app List.length]; fold (qa_pairs rest); lia.
Qed.

Lemma qa_pairs_nil (sents : list Sentence) :
  qa_pairs sents = [] <-> Forall rejected sents.
Proof.
  induction sents as [|sent rest IH]; [split; auto|].
  cbn [qa_pairs flat_map]. fold (qa_pairs rest). split.
  - intros H. destruct (qa_of_sentence sent) eqn:E; [discriminate|].
    constructor; [now apply rejected_iff | now apply IH].
  - intros H. apply Forall_cons_iff in H as [Hs Hr].
    apply rejected_iff in Hs. rewrite Hs. now apply IH.
Qed.

Lemma qa_of_sentence_fields (sent : Sentence) (q a : string) :
  qa_of_sentence sent = Some (q, a) ->
  PyStr.is_stripped q /\ q <> ""
  /\ PyStr.is_stripped a /\ 3 <= String.length a.
Proof.
  unfold qa_of_sentence.
  destruct (falsy (Some (PyStr.strip (sent_text sent)))) eqn:Ef; [discriminate|].
  destruct (pick_answer sent) as [cand|] eqn:Ep; [|discriminate].
  destruct (mask_question (PyStr.strip (sent_text sent)) cand) as [qt|] eqn:Em;
    [|discriminate].
  intros [= <- <-]. destruct (pick_answer_strip _ _ Ep) as [Hs Hl].
  split; [apply PyStrFacts.strip_is_stripped|].
  split; [|split; [apply PyStrFacts.strip_is_stripped | exact Hl]].
  apply mask_question_some in Em. subst qt.
  rewrite question_stripped by now apply strip_nonempty.
  apply falsy_false in Ef.
  destruct (replace_cases (PyStr.strip (sent_text sent)) cand
              (strip_nonempty _ Hs)) as [[_ ->]|(pre & post & _ & ->)];
    [exact Ef|].
  intros E. apply PyStrFacts.append_eq_nil in E as [_ E]. discriminate.
Qed.

(** X9: for a non-negative number of distractors the call returns at most
    one flashcard per sentence; every flashcard has the type "mcq", a
    non-empty question and an answer of at least three characters, both
    without whitespace at either end. *)
Theorem flashcards_well_formed (nlp : string -> Doc)
  (synsets : string -> list Synset) (order : SetOrder) (R : RandomSource)
  (doc_text : string) (N : Z) (g : rng R) :
  (0 <= N)%Z ->
  exists cards g',
    generate_mcq_flashcards nlp synsets order R doc_text N g = Ok (cards, g')
    /\ List.length cards <= List.length (doc_sents (nlp doc_text))
    /\ Forall
         (fun c =>
            card_type c = "mcq"
            /\ PyStr.is_stripped (question c) /\ question c <> ""
            /\ PyStr.is_stripped (answer c)
            /\ 3 <= String.length (answer c))
         cards.
Proof.
  intros HN.
  destruct (generate_ok nlp synsets order R doc_text N g HN)
    as (cards & g' & E & Hqa & Hall).
  exists cards, g'. split; [exact E|]. split.
  - rewrite <- (length_map qa cards), Hqa. apply qa_pairs_length.
  - eapply Forall_impl; [|exact Hall].
    intros c (sent & _ & Ht & Hq & _). split; [exact Ht|].
    now apply (qa_of_sentence_fields sent).
Qed.

Lemma flashcards_well_formed_witness :
  (0 <= 3)%Z
  /\ exists cards g',
       generate_mcq_flashcards (stub_nlp paris_doc) no_synsets insertion_order
         tape_random paris_text 3 [4; 1; 3] = Ok (cards, g')
       /\ List.length cards <= List.length (doc_sents (stub_nlp paris_doc paris_text))
       /\ Forall
            (fun c =>
               card_type c = "mcq"
               /\ PyStr.is_stripped (question c) /\ question c <> ""
               /\ PyStr.is_stripped (answer c)
               /\ 3 <= String.length (answer c))
            cards.
Proof. split; [lia | apply flashcards_well_formed; lia]. Defined.

(** X10: with a negative number of distractors the call raises
    [ValueError] exactly when some sentence is not left early; when all
    are, it returns the empty list. *)
Theorem negative_count (nlp : string -> Doc)
  (synsets : string -> list Synset) (order : SetOrder) (R : RandomSource)
  (doc_text : string) (N : Z) (g : rng R) :
  (N < 0)%Z ->
  (generate_mcq_flashcards nlp synsets order R doc_text N g = Raise ValueError
   <-> ~ Forall rejected (doc_sents (nlp doc_text)))
  /\ (generate_mcq_flashcards nlp synsets order R doc_text N g = Ok ([], g)
      <-> Forall rejected (doc_sents (nlp doc_text))).
Proof.
  intros HN. unfold generate_mcq_flashcards.
  rewrite <- qa_pairs_nil.
  destruct (qa_pairs (doc_sents (nlp doc_text))) as [|p ps] eqn:E.
  - rewrite sentence_loop_nil by assumption.
    split; split; auto; try discriminate. intros H. now elim H.
  - rewrite sentence_loop_raise by (assumption || congruence).
    split; split; auto; discriminate.
Qed.

Lemma negative_count_witness :
  (-1 < 0)%Z
  /\ generate_mcq_flashcards (stub_nlp paris_doc) no_synsets insertion_order
       tape_random paris_text (-1) [4; 1; 3] = Raise ValueError.
Proof.
  split; [lia|].
  apply (negative_count (stub_nlp paris_doc) no_synsets insertion_order
           tape_random paris_text (-1) [4; 1; 3]); [lia|].
  intros H. apply Forall_inv in H. apply rejected_iff in H. discriminate H.
Defined.

(** ** The endpoint *)

Section EndpointFacts.

Variable nlp : string -> Doc.
Variable synsets : string -> list Synset.
Variable order : SetOrder.
Variable R : RandomSource.

Lemma long_text_passes (data : TextInput) :
  50 <= String.length (text data) ->
  falsy (Some (text data)) || (String.length (text data) <? 50)%nat = false.
Proof.
  intros H. apply orb_false_iff. split; [|now apply Nat.ltb_ge].
  destruct (text data); [simpl in H; lia | reflexivity].
Qed.

(** X11: the endpoint answers 400 "Input text is too short or empty."
    exactly for the texts of fewer than 50 characters, the empty text
    among them, whatever the annotator and the lexical database are. *)
Theorem short_text_refused (data : TextInput) (g : rng R) :
  create_flashcards nlp synsets order R data g
  = Abort {| status_code := 400;
             detail := "Input text is too short or empty." |}
  <-> String.length (text data) < 50.
Proof.
  unfold create_flashcards. split.
  - intros H. destruct (Nat.lt_ge_cases (String.length (text data)) 50) as [|Hge];
      [assumption|].
    rewrite (long_text_passes data Hge) in H.
    destruct (generate_ok nlp synsets order R (text data) 3 g ltac:(lia))
      as (cards & g' & E & _).
    rewrite E in H. destruct cards; discriminate.
  - intros H. apply Nat.ltb_lt in H. rewrite H. now rewrite orb_true_r.
Qed.


End EndpointFacts.

